(** * npz.py: the incremental [.npz] writer

    A shallow embedding of [IncrementalNpzWriter] (src/npz.py) together with
    the part of Python's [zipfile], [shutil] and [io] interfaces the class
    calls into, and the properties of the writer's life cycle. *)

From Stdlib Require Import ZArith Ascii String List Strings.Byte Lia.
From stdpp Require Import base option list strings gmap.
From Equations Require Import Equations.

Local Open Scope string_scope.
Local Open Scope list_scope.

(** ** Python values used by the writer *)

(** Exceptions that can travel through the writer.  [OSError] carries the
    errno name; [IOError] is an alias of [OSError] in Python 3;
    [StructError] is [struct.error]. *)
Inductive PyExc : Type :=
| AssertionError (msg : string)
| ValueError (msg : string)
| AttributeError (msg : string)
| KeyError (msg : string)
| TypeError (msg : string)
| RuntimeError (msg : string)
| UnsupportedOperation (msg : string)
| SystemError (msg : string)
| StructError (msg : string)
| OSError (errno : string).

(** The outcome of a call: a value, or a raised exception. *)
Inductive Result (A : Type) : Type :=
| Ok (a : A)
| Raise (e : PyExc).
Arguments Ok {A} a.
Arguments Raise {A} e.

Definition is_Ok {A} (r : Result A) : bool :=
  match r with Ok _ => true | Raise _ => false end.

(** [zipfile.ZIP_STORED] and [zipfile.ZIP_DEFLATED]. *)
Inductive Compression : Type := ZIP_STORED | ZIP_DEFLATED.

(** An in-memory array: what [np.ndarray] carries as far as the encoder is
    concerned. *)
Record ndarray : Type := mk_ndarray {
  dtype : string;
  shape : list nat;
  payload : list byte
}.

(** [typing.Union[np.ndarray, bytes]], the type of [write]'s [data]. *)
Inductive Data : Type :=
| NdArray (a : ndarray)
| Bytes (b : list byte).

(** A [str] is the sequence of the bytes of its UTF-8 encoding, so that
    [String.length] is the length of the encoded string (and the number of
    characters of an ASCII string); the character [chr(0)] is the byte 0. *)

(** Python's [x in s] on two [str]: [x] occurs in [s] as a contiguous
    substring (the empty string occurs in every string). *)
Fixpoint str_in (x s : string) : bool :=
  String.prefix x s
  || match s with
     | EmptyString => false
     | String _ s' => str_in x s'
     end.

(** Python's [x in (a, b, ...)] on a tuple of [str]: equality with one of the
    members. *)
Definition tuple_in (x : string) (t : list string) : bool :=
  bool_decide (x ∈ t).

(** Python's [s.find(c)] for a [c] of one character: the index of the first
    occurrence of [c] in [s], or -1. *)
Fixpoint str_find (c : ascii) (s : string) : Z :=
  match s with
  | EmptyString => (-1)%Z
  | String c' s' =>
      if decide (c' = c) then 0%Z
      else let i := str_find c s' in
           if (i <? 0)%Z then (-1)%Z else (i + 1)%Z
  end.

(** Python's [s.replace(c, d)] for [c] and [d] of one character. *)
Fixpoint str_replace (c d : ascii) (s : string) : string :=
  match s with
  | EmptyString => EmptyString
  | String c' s' => String (if decide (c' = c) then d else c') (str_replace c d s')
  end.

(** [chr(0)]. *)
Definition NUL : ascii := Ascii.zero.

(** ** The archive container ([zipfile]) as data *)

(** One entry of an archive's directory ([zipfile.ZipInfo]): its name, its
    compression method, whether it was written with ZIP64 extensions, the
    size the directory records for it, and the bytes that reached the medium
    for it. *)
Record ZipInfo : Type := mk_ZipInfo {
  zi_filename : string;
  zi_compress_type : Compression;
  zi_zip64 : bool;
  zi_file_size : nat;
  zi_data : list byte
}.

(** The state of an entry that is open for writing ([zipfile._ZipWriteFile]):
    the [ZipInfo] under construction, the number of bytes counted so far
    ([_file_size]) and the bytes the medium has accepted. *)
Record ZipWriteFile : Type := mk_ZipWriteFile {
  zw_name : string;
  zw_compress_type : Compression;
  zw_zip64 : bool;
  zw_file_size : nat;
  zw_written : list byte
}.

(** A [zipfile.ZipFile] object.  [zf_filename] is [None] when the object was
    built on something that is not a path; [zf_fp] tells whether the
    underlying file is still open ([self.fp is not None]); [zf_writing] holds
    the entry that is open for writing, if any ([self._writing] is true
    exactly when there is one). *)
Record ZipFile : Type := mk_ZipFile {
  zf_filename : option string;
  zf_mode : string;
  zf_compression : Compression;
  zf_fp : bool;
  zf_filelist : list ZipInfo;
  zf_writing : option ZipWriteFile;
  zf_didModify : bool
}.

(** What [ZipFile.open] returns: a channel that writes a new entry of the
    archive at heap address [h], or one that reads an existing entry. *)
Inductive Channel : Type :=
| WriteChannel (h : nat)
| ReadChannel (h : nat) (zinfo : ZipInfo).

(** ** The writer object and the machine state *)

(** The attributes of an [IncrementalNpzWriter] instance. *)
Record IncrementalNpzWriter : Type := mk_IncrementalNpzWriter {
  compression : Compression;
  tofile : option string;
  mode : string;
  file : option nat
}.

(** How the medium answers one input/output request. *)
Inductive IO : Type :=
| IoOk
| IoFail (errno : string).

(** Calls into [zipfile], in the order they are made. *)
Inductive Event : Type :=
| CallZipFile (path : option string) (mode : string) (c : Compression)
| CallOpen (h : nat) (name mode : string) (force_zip64 : bool)
| CallWrite (c : Channel) (buf : list byte)
| CallCloseEntry (c : Channel)
| CallClose (h : nat).

(** The machine: the writer object [self], the heap of [ZipFile] objects
    (an address is an index; an object stays in the heap when nothing refers
    to it any more), the archives on the
    medium (a path maps to the entries of its directory), the answers the
    medium will give to the coming input/output requests (it answers [IoOk]
    once the list is used up), and the calls made into [zipfile] so far. *)
Record State : Type := mk_State {
  self : IncrementalNpzWriter;
  heap : list ZipFile;
  disk : gmap string (list ZipInfo);
  script : list IO;
  trace : list Event
}.

Definition set_self (w : IncrementalNpzWriter) (st : State) : State :=
  mk_State w (heap st) (disk st) (script st) (trace st).
Definition set_heap (hp : list ZipFile) (st : State) : State :=
  mk_State (self st) hp (disk st) (script st) (trace st).
Definition set_disk (d : gmap string (list ZipInfo)) (st : State) : State :=
  mk_State (self st) (heap st) d (script st) (trace st).
Definition set_script (s : list IO) (st : State) : State :=
  mk_State (self st) (heap st) (disk st) s (trace st).
Definition set_trace (t : list Event) (st : State) : State :=
  mk_State (self st) (heap st) (disk st) (script st) t.

(** ** Computations: state and exceptions

    A statement runs on a state and leaves a state, whether it returns or
    raises: what it did before raising stays done. *)
Definition M (A : Type) : Type := State -> Result A * State.

Definition ret {A} (a : A) : M A := fun st => (Ok a, st).
Definition raise {A} (e : PyExc) : M A := fun st => (Raise e, st).
Definition bind {A B} (c : M A) (k : A -> M B) : M B :=
  fun st =>
    match c st with
    | (Ok a, st') => k a st'
    | (Raise e, st') => (Raise e, st')
    end.

#[export] Instance M_ret : MRet M := @ret.
#[export] Instance M_bind : MBind M := fun A B k c => bind c k.

Definition get : M State := fun st => (Ok st, st).
Definition modify (f : State -> State) : M unit := fun st => (Ok tt, f st).
Definition emit (e : Event) : M unit :=
  modify (fun st => set_trace (trace st ++ [e]) st).

(** [try: body finally: cleanup]. The clean-up runs on both paths; an
    exception of the clean-up replaces the outcome of the body. *)
Definition try_finally {A} (body : M A) (cleanup : M unit) : M A :=
  fun st =>
    match body st with
    | (r, st') =>
        match cleanup st' with
        | (Ok _, st'') => (r, st'')
        | (Raise e, st'') => (Raise e, st'')
        end
    end.

(** [with enter as x: body], for a context manager whose [__exit__] returns
    [None] (it never swallows the exception of the body, as is the case of
    every manager used here).  When [enter] raises, [exit] is not called. *)
Definition with_ {R A} (enter : M R) (exit : R -> M unit) (body : R -> M A) : M A :=
  x ← enter; try_finally (body x) (exit x).

Definition lift {A} (r : Result A) : M A := fun st => (r, st).

(** ** [zipfile]: the calls the writer makes

    The model follows CPython's [zipfile.py] (3.11) on a POSIX system.  Data
    is kept as it is written (compression changes the stored form, not the
    content), and every file on the medium is a well-formed archive. *)

Module os.

(** [os.sep] on POSIX. *)
Definition sep : ascii := "/"%char.

End os.

Module zipfile.

(** [ZIP64_LIMIT = (1 << 31) - 1]. *)
Definition ZIP64_LIMIT : Z := (Z.shiftl 1 31 - 1)%Z.

Definition zf_set_fp (b : bool) (z : ZipFile) : ZipFile :=
  mk_ZipFile (zf_filename z) (zf_mode z) (zf_compression z) b
             (zf_filelist z) (zf_writing z) (zf_didModify z).
Definition zf_set_filelist (l : list ZipInfo) (z : ZipFile) : ZipFile :=
  mk_ZipFile (zf_filename z) (zf_mode z) (zf_compression z) (zf_fp z)
             l (zf_writing z) (zf_didModify z).
Definition zf_set_writing (w : option ZipWriteFile) (z : ZipFile) : ZipFile :=
  mk_ZipFile (zf_filename z) (zf_mode z) (zf_compression z) (zf_fp z)
             (zf_filelist z) w (zf_didModify z).
Definition zf_set_didModify (b : bool) (z : ZipFile) : ZipFile :=
  mk_ZipFile (zf_filename z) (zf_mode z) (zf_compression z) (zf_fp z)
             (zf_filelist z) (zf_writing z) b.

(** The entry [w] after [n] more bytes have been counted
    ([self._file_size += nbytes]). *)
Definition zw_count (w : ZipWriteFile) (n : nat) : ZipWriteFile :=
  mk_ZipWriteFile (zw_name w) (zw_compress_type w) (zw_zip64 w)
                  (zw_file_size w + n) (zw_written w).

(** The entry [w] after the medium has accepted [data]. *)
Definition zw_append (w : ZipWriteFile) (data : list byte) : ZipWriteFile :=
  mk_ZipWriteFile (zw_name w) (zw_compress_type w) (zw_zip64 w)
                  (zw_file_size w) (zw_written w ++ data).

(** The directory record of the entry [w] once it is closed. *)
Definition zw_zinfo (w : ZipWriteFile) : ZipInfo :=
  mk_ZipInfo (zw_name w) (zw_compress_type w) (zw_zip64 w) (zw_file_size w)
             (zw_written w).

(** The name [ZipInfo(filename)] keeps ([ZipInfo.__init__]): [filename] up
    to its first null byte, with [os.sep] replaced by ["/"] where the two
    differ. *)
Definition ZipInfo_filename (filename : string) : string :=
  let null_byte := str_find NUL filename in
  let filename :=
    if (null_byte >=? 0)%Z then substring 0 (Z.to_nat null_byte) filename
    else filename in
  if negb (bool_decide (os.sep = "/"%char)) && (str_find os.sep filename >=? 0)%Z
  then str_replace os.sep "/"%char filename
  else filename.

(** [zinfo.FileHeader(zip64)] as far as it can fail: [struct.pack] takes
    the length of the encoded name as an unsigned short. *)
Definition FileHeader (filename : string) : M unit :=
  if (Z.of_nat (String.length filename) <=? 65535)%Z then ret tt
  else raise (StructError "ushort format requires 0 <= number <= 65535").

(** The object at address [h].  References of a running program are never
    dangling; the model raises [SystemError] on an address outside the
    heap to stay total. *)
Definition deref (h : nat) : M ZipFile := fun st =>
  match heap st !! h with
  | Some z => (Ok z, st)
  | None => (Raise (SystemError "dangling reference"), st)
  end.

Definition update (h : nat) (f : ZipFile -> ZipFile) : M unit :=
  z ← deref h;
  modify (fun st => set_heap (<[h := f z]> (heap st)) st).

Definition alloc (z : ZipFile) : M nat := fun st =>
  (Ok (length (heap st)), set_heap (heap st ++ [z]) st).

(** One request to the medium: it takes the next answer of the script. *)
Definition request : M unit := fun st =>
  match script st with
  | [] => (Ok tt, st)
  | IoOk :: s => (Ok tt, set_script s st)
  | IoFail errno :: s => (Raise (OSError errno), set_script s st)
  end.

(** [self.fp.write(...)] inside a [ZipFile]: a request to the medium when
    the archive was opened on a path; when it was built on [None] there is
    no file object to write to. *)
Definition fp_write (z : ZipFile) : M unit :=
  match zf_filename z with
  | Some _ => request
  | None => raise (AttributeError "'NoneType' object has no attribute 'write'")
  end.

(** [io.open(file, filemode)] as [ZipFile.__init__] uses it, with its chain
    of fall-back modes: the result is the archive found at [path], or
    [None] when the file has just been created or truncated. *)
Definition io_open (path mode : string) : M (option (list ZipInfo)) :=
  request;;
  st ← get;
  let create := modify (fun st => set_disk (<[path := []]> (disk st)) st) in
  if decide (mode = "r") then
    match disk st !! path with
    | Some entries => ret (Some entries)
    | None => raise (OSError "ENOENT")
    end
  else if decide (mode = "w") then create;; ret None
  else if decide (mode = "x") then
    match disk st !! path with
    | Some _ => raise (OSError "EEXIST")
    | None => create;; ret None
    end
  else (* "a": 'r+b', and 'w+b' when the file is missing *)
    match disk st !! path with
    | Some entries => ret (Some entries)
    | None => create;; ret None
    end.

(** [ZipFile(file, mode=mode, compression=compression)]; the result is the
    address of the new object.  [allowZip64] keeps its default, [True]. *)
Definition ZipFile_init (file : option string) (mode : string)
    (compression : Compression) : M nat :=
  emit (CallZipFile file mode compression);;
  if negb (tuple_in mode ["r"; "w"; "x"; "a"]) then
    raise (ValueError "ZipFile requires mode 'r', 'w', 'x', or 'a'")
  else
    match file with
    | Some path =>
        found ← io_open path mode;
        alloc (mk_ZipFile (Some path) mode compression true
                          (default [] found) None
                          (match found with None => true | Some _ => false end))
    | None =>
        (* not a [str]: taken as a file object *)
        if tuple_in mode ["w"; "x"] then
          alloc (mk_ZipFile None mode compression true [] None true)
        else
          raise (AttributeError "'NoneType' object has no attribute 'seek'")
    end.

(** [ZipFile._open_to_write(zinfo, force_zip64)] for a fresh [zinfo] of
    name [name], inlining [_writecheck].  With [allowZip64] true and a
    fresh [ZipInfo] (file size 0), the entry uses ZIP64 exactly when
    [force_zip64] is set.  The header is built before it is written. *)
Definition _open_to_write (h : nat) (z : ZipFile) (name : string)
    (force_zip64 : bool) : M Channel :=
  match zf_writing z with
  | Some _ =>
      raise (ValueError "Can't write to the ZIP file while there is another write handle open on it.")
  | None =>
      if negb (tuple_in (zf_mode z) ["w"; "x"; "a"]) then
        raise (ValueError "write() requires mode 'w', 'x', or 'a'")
      else
        update h (zf_set_didModify true);;
        FileHeader name;;
        fp_write z;;
        update h (zf_set_writing
                    (Some (mk_ZipWriteFile name (zf_compression z) force_zip64 0 [])));;
        ret (WriteChannel h)
  end.

(** [ZipFile.getinfo(name)]: the entry registered last under [name]. *)
Definition getinfo (z : ZipFile) (name : string) : M ZipInfo :=
  match find (fun zi => bool_decide (zi_filename zi = name)) (rev (zf_filelist z)) with
  | Some zi => ret zi
  | None => raise (KeyError "There is no item named that in the archive")
  end.

(** [ZipFile.open(name, mode=mode, force_zip64=force_zip64)] on the object
    at address [h]: [mode] has to be ['r'] or ['w'] (the message of the
    [ValueError] is the library's, with its inner quotes written as single
    quotes); for writing, the entry is a [ZipInfo(name)]. *)
Definition ZipFile_open (h : nat) (name mode : string) (force_zip64 : bool)
    : M Channel :=
  emit (CallOpen h name mode force_zip64);;
  if negb (tuple_in mode ["r"; "w"]) then
    raise (ValueError "open() requires mode 'r' or 'w'")
  else
    z ← deref h;
    if negb (zf_fp z) then
      raise (ValueError "Attempt to use ZIP archive that was already closed")
    else if decide (mode = "w") then
      _open_to_write h z (ZipInfo_filename name) force_zip64
    else
      zinfo ← getinfo z name;
      match zf_writing z with
      | Some _ =>
          raise (ValueError "Can't read from the ZIP file while there is an open writing handle on it.")
      | None => ret (ReadChannel h zinfo)
      end.

(** [outfile.write(data)]: on a write channel the bytes are counted, then
    they go to the medium; a read channel is not writable.  A write channel
    stands for the entry its archive has open for writing. *)
Definition write (c : Channel) (data : list byte) : M nat :=
  emit (CallWrite c data);;
  match c with
  | WriteChannel h =>
      z ← deref h;
      match zf_writing z with
      | None => raise (ValueError "I/O operation on closed file.")
      | Some w =>
          let w := zw_count w (length data) in
          update h (zf_set_writing (Some w));;
          fp_write z;;
          update h (zf_set_writing (Some (zw_append w data)));;
          ret (length data)
      end
  | ReadChannel _ _ => raise (UnsupportedOperation "write")
  end.

(** The [try] block of [_ZipWriteFile.close] for the entry [w] of the
    archive [z] at address [h]: flush the compressor, refuse an entry beyond
    [ZIP64_LIMIT] that was not opened with ZIP64, write the header, and
    register the entry in the archive's directory. *)
Definition finish_entry (h : nat) (z : ZipFile) (w : ZipWriteFile) : M unit :=
  (match zw_compress_type w with
   | ZIP_DEFLATED => fp_write z
   | ZIP_STORED => ret tt
   end);;
  (if negb (zw_zip64 w) && (Z.of_nat (zw_file_size w) >? ZIP64_LIMIT)%Z
   then raise (RuntimeError "File size unexpectedly exceeded ZIP64 limit")
   else ret tt);;
  fp_write z;;
  update h (fun z => zf_set_filelist (zf_filelist z ++ [zw_zinfo w]) z).

(** [outfile.close()]: closing a closed channel does nothing; closing a
    write channel finishes the entry and, whether that succeeded or not,
    takes the archive out of writing state. *)
Definition close (c : Channel) : M unit :=
  emit (CallCloseEntry c);;
  match c with
  | WriteChannel h =>
      z ← deref h;
      match zf_writing z with
      | None => ret tt
      | Some w => try_finally (finish_entry h z w) (update h (zf_set_writing None))
      end
  | ReadChannel _ _ => ret tt
  end.

(** [ZipFile._write_end_record()]: the directory goes to the medium, which
    from then on holds the archive with its entries. *)
Definition _write_end_record (z : ZipFile) : M unit :=
  fp_write z;;
  match zf_filename z with
  | Some path =>
      modify (fun st => set_disk (<[path := zf_filelist z]> (disk st)) st)
  | None => ret tt
  end.

(** [ZipFile.close()] on the object at address [h]: nothing on a closed
    archive; otherwise the ending records are written when the archive was
    modified, and the file is released whether that succeeded or not. *)
Definition ZipFile_close (h : nat) : M unit :=
  emit (CallClose h);;
  z ← deref h;
  if negb (zf_fp z) then ret tt
  else
    match zf_writing z with
    | Some _ =>
        raise (ValueError "Can't close the ZIP file while there is an open writing handle on it.")
    | None =>
        try_finally
          (if tuple_in (zf_mode z) ["w"; "x"; "a"] && zf_didModify z
           then _write_end_record z
           else ret tt)
          (update h (zf_set_fp false))
    end.

(** [ZipFile.__del__()]: it calls [close()]. *)
Definition __del__ (h : nat) : M unit := ZipFile_close h.

End zipfile.

(** ** [io.BytesIO] and [shutil.copyfileobj] *)
Module io.

(** The successive results of [read(n)] on a [BytesIO] holding [data],
    from position 0 until the first empty one (which [read(0)] gives at
    once). *)
Equations? reads (n : nat) (data : list byte) : list (list byte)
  by wf (length data) lt :=
reads 0 _ := [];
reads _ [] := [];
reads (S n) (b :: data) := (b :: take n data) :: reads (S n) (drop n data).
Proof. rewrite length_drop. simpl. lia. Qed.

End io.

Module shutil.

(** [COPY_BUFSIZE], 64 KiB (1 MiB on Windows). *)
Definition COPY_BUFSIZE : nat := 64 * 1024.

(** The loop of [copyfileobj]: one [fdst.write(buf)] for each non-empty
    [buf] read. *)
Fixpoint write_each (fdst : Channel) (bufs : list (list byte)) : M unit :=
  match bufs with
  | [] => ret tt
  | buf :: bufs' => zipfile.write fdst buf;; write_each fdst bufs'
  end.

(** [copyfileobj(fsrc, fdst, length=0)] with [fsrc] a [BytesIO] at
    position 0 holding [fsrc]. *)
Definition copyfileobj (fsrc : list byte) (fdst : Channel) (length : nat) : M unit :=
  let length := if decide (length = 0) then COPY_BUFSIZE else length in
  write_each fdst (io.reads length fsrc).

End shutil.

(** ** [decorator.timing] *)

(** Modelled from the spec: the decorator [timing] of the module [decorator],
    which is not among the sources.  The spec calls it an instrumentation
    wrapper that is orthogonal to correctness: the decorated function runs
    as it is and its outcome is passed on. *)
Definition timing {F : Type} (print_args : bool) (f : F) : F := f.

(** ** [class IncrementalNpzWriter] *)

Section Writer.

(** [np.save(cbuf, data)]: the array encoder, taken as it comes.  It gives
    the bytes it leaves in [cbuf], or the exception it raises. *)
Variable np_save : Data -> Result (list byte).

(** [__init__(self, tofile, mode='x', compress_file=False)]. *)
Definition __init__ (tofile : string) (mode : string) (compress_file : bool)
    : Result IncrementalNpzWriter :=
  if str_in mode "xwa" then
    Ok (mk_IncrementalNpzWriter
          (if compress_file then ZIP_DEFLATED else ZIP_STORED)
          (Some tofile) mode None)
  else Raise (AssertionError mode).

(** [openFile(self)]. *)
Definition openFile : M unit :=
  st ← get;
  f ← zipfile.ZipFile_init (tofile (self st)) (mode (self st)) (compression (self st));
  modify (fun st =>
    set_self (mk_IncrementalNpzWriter (compression (self st)) (tofile (self st))
                (mode (self st)) (Some f)) st).

(** [close(self)]. *)
Definition close : M unit :=
  st ← get;
  match tofile (self st) with
  | Some _ =>
      match file (self st) with
      | Some f => zipfile.ZipFile_close f
      | None => raise (AttributeError "'NoneType' object has no attribute 'close'")
      end;;
      modify (fun st =>
        set_self (mk_IncrementalNpzWriter (compression (self st)) None
                    (mode (self st)) (file (self st))) st)
  | None => ret tt
  end.

(** [__enter__(self)]; the value it returns is [self]. *)
Definition __enter__ : M unit := openFile.

(** [__exit__(self, exc_type, exc_val, exc_tb)]; it returns [None]. *)
Definition __exit__ : M unit := close.

(** [write(self, key, data)]. *)
Definition write : string -> Data -> M unit :=
  timing false (fun key data =>
    let key := key +:+ ".npy" in
    (* with io.BytesIO() as cbuf: *)
    cbuf ← lift (np_save data);
    (* cbuf.seek(0) *)
    st ← get;
    match file (self st) with
    | Some f =>
        with_ (zipfile.ZipFile_open f key (mode (self st)) true) zipfile.close
              (fun outfile => shutil.copyfileobj cbuf outfile 0)
    | None => raise (AttributeError "'NoneType' object has no attribute 'open'")
    end).

(** ** Using the writer *)

(** [with IncrementalNpzWriter(...) as w: body], once the writer object is
    built. *)
Definition scoped {A} (body : M A) : M A :=
  with_ __enter__ (fun _ => __exit__) (fun _ => body).

(** A body that appends the items one after the other. *)
Fixpoint write_items (items : list (string * Data)) : M unit :=
  match items with
  | [] => ret tt
  | (key, data) :: items' => write key data;; write_items items'
  end.

(** The operations a caller can perform on a writer object. *)
Inductive Op : Type :=
| OpOpenFile
| OpWrite (key : string) (data : Data)
| OpClose.

Definition perform (o : Op) : M unit :=
  match o with
  | OpOpenFile => openFile
  | OpWrite key data => write key data
  | OpClose => close
  end.

(** The state after a sequence of operations by a caller that goes on after
    an exception, every archive object staying as the operations leave
    it. *)
Definition run (ops : list Op) (st : State) : State :=
  fold_left (fun st o => snd (perform o st)) ops st.

(** What the runtime does with an object that has lost its last reference:
    it calls the finaliser, and an exception raised there is reported and
    dropped. *)
Definition finalize (del : M unit) : M unit := fun st => (Ok tt, snd (del st)).

(** An operation by a caller that holds the writer and nothing else, under
    CPython's reference counting.  The assignment to [self.file] in
    [openFile] takes the last reference from the [ZipFile] object that
    [self.file] referred to: that object is finalised right after the
    assignment, once the new one exists.  When [openFile] raises there is no
    assignment. *)
Definition perform_rc (o : Op) : M unit := fun st =>
  match o with
  | OpOpenFile =>
      match openFile st, file (self st) with
      | (Ok _, st'), Some old => finalize (zipfile.__del__ old) st'
      | res, _ => res
      end
  | _ => perform o st
  end.

(** The state after a sequence of such operations. *)
Definition run_rc (ops : list Op) (st : State) : State :=
  fold_left (fun st o => snd (perform_rc o st)) ops st.

End Writer.

(** The machine right after construction: no [ZipFile] object yet, nothing
    called. *)
Definition boot (w : IncrementalNpzWriter) (d : gmap string (list ZipInfo))
    (s : list IO) : State :=
  mk_State w [] d s [].

(** ** Observations on a state *)

(** The [ZipFile] objects that are open. *)
Definition open_handles (st : State) : list ZipFile :=
  filter (fun z => zf_fp z = true) (heap st).

(** The entries of the archive at address [h]. *)
Definition entries (h : nat) (st : State) : list ZipInfo :=
  match heap st !! h with
  | Some z => zf_filelist z
  | None => []
  end.

(** The entry [w] after [n] more bytes have been counted and the medium has
    accepted [d]. *)
Definition zw_add (w : ZipWriteFile) (n : nat) (d : list byte) : ZipWriteFile :=
  zipfile.zw_append (zipfile.zw_count w n) d.

(** The number of [ZipFile.close] calls made on address [h]. *)
Definition is_close_call (h : nat) (e : Event) : bool :=
  match e with
  | CallClose h' => bool_decide (h' = h)
  | _ => false
  end.

Definition close_calls (h : nat) (t : list Event) : nat :=
  length (filter (fun e => is_close_call h e = true) t).

(** The medium answers every coming request with [IoOk]. *)
Definition reliable (st : State) : Prop := Forall (fun a => a = IoOk) (script st).

(** A sample encoder to run the model on: the magic string of the [.npy]
    format in front of the raw bytes.  It refuses arrays of dtype
    [object]. *)
Definition sample_save (data : Data) : Result (list byte) :=
  let magic := [x93; x4e; x55; x4d; x50; x59]%byte in
  match data with
  | Bytes b => Ok (magic ++ b)
  | NdArray a =>
      if decide (dtype a = "object") then Raise (TypeError "cannot encode object array")
      else Ok (magic ++ payload a)
  end.

(** ** Life-cycle states of a writer *)

(** Constructed and never opened: [__init__] has run, [openFile] has not. *)
Definition unopened (st : State) : Prop :=
  file (self st) = None /\ is_Some (tofile (self st))
  /\ str_in (mode (self st)) "xwa" = true.

(** Opened, with the archive at address [h]: [openFile] has returned, no
    [close] has run, and no entry is being written. *)
Definition opened (h : nat) (st : State) : Prop :=
  file (self st) = Some h /\ is_Some (tofile (self st))
  /\ exists z, heap st !! h = Some z
       /\ zf_fp z = true /\ zf_writing z = None
       /\ zf_filename z = tofile (self st)
       /\ zf_mode z = mode (self st)
       /\ zf_compression z = compression (self st)
       /\ tuple_in (zf_mode z) ["w"; "x"; "a"] = true.

(** The archive at address [h] has been closed. *)
Definition handle_closed (h : nat) (st : State) : Prop :=
  exists z, heap st !! h = Some z /\ zf_fp z = false.

(** ** Frames: what a computation leaves alone *)

(** [c] takes every state to one that is [R]-related to it, whether it
    returns or raises. *)
Definition preserves {A} (R : State -> State -> Prop) (c : M A) : Prop :=
  forall st, R st (snd (c st)).

(** The events of writing one entry called [name] into the archive at [h],
    with ZIP64 requested. *)
Definition entry_event (h : nat) (name : string) (e : Event) : Prop :=
  match e with
  | CallOpen h' name' _ force_zip64 => h' = h /\ name' = name /\ force_zip64 = true
  | CallWrite _ _ => True
  | CallCloseEntry _ => True
  | CallZipFile _ _ _ => False
  | CallClose _ => False
  end.

(** The fields of a [ZipFile] that writing an entry does not touch. *)
Definition same_archive (z z' : ZipFile) : Prop :=
  zf_fp z' = zf_fp z /\ zf_mode z' = zf_mode z
  /\ zf_filename z' = zf_filename z /\ zf_compression z' = zf_compression z.

(** [st'] differs from [st] at most in the object at address [h], which is
    still the same archive, in the answers the medium still has to give, and
    in the trace, which has grown by events of one entry [name]. *)
Record touches_only (h : nat) (name : string) (st st' : State) : Prop :=
  mk_touches_only {
    to_self : self st' = self st;
    to_disk : disk st' = disk st;
    to_length : length (heap st') = length (heap st);
    to_others : forall i, i <> h -> heap st' !! i = heap st !! i;
    to_archive : forall z, heap st !! h = Some z ->
                 exists z', heap st' !! h = Some z' /\ same_archive z z';
    to_script : suffix (script st') (script st);
    to_trace : exists evs, trace st' = trace st ++ evs
                           /\ Forall (entry_event h name) evs
  }.

(** The channel [c] belongs to the archive at address [h]. *)
Definition channel_of (h : nat) (c : Channel) : Prop :=
  match c with
  | WriteChannel h' => h' = h
  | ReadChannel h' _ => h' = h
  end.



(** Marked closed: [tofile] is [None], and the archive object the writer
    refers to, if any, is closed or was built on no file. *)
Definition retired (st : State) : Prop :=
  tofile (self st) = None
  /\ forall h, file (self st) = Some h ->
     exists z, heap st !! h = Some z /\ (zf_fp z = false \/ zf_filename z = None).

(** The name of the entry that [write] makes for [key] can be packed into
    the header of the entry: it takes at most 65535 bytes. *)
Definition name_fits (key : string) : Prop :=
  (Z.of_nat (String.length (zipfile.ZipInfo_filename (key +:+ ".npy"))) <= 65535)%Z.

(** ** Sample runs *)

Definition sample_array : ndarray :=
  mk_ndarray "<f8" [1] [x00; x00; x00; x00; x00; x00; xf0; x3f]%byte.

Definition sample_blob : list byte := [x01; x02; x03]%byte.

(** The writer [IncrementalNpzWriter('test.npz', mode)]. *)
Definition sample_writer (mode : string) : IncrementalNpzWriter :=
  mk_IncrementalNpzWriter ZIP_STORED (Some "test.npz") mode None.

(** That writer after [openFile()], on an empty medium that will answer
    with [s]. *)
Definition sample_opened (mode : string) (s : list IO) : State :=
  snd (openFile (boot (sample_writer mode) ∅ s)).

(** ** The script and what a run should leave *)

(** The writer part of the script under [if __name__ == "__main__"], for the
    array [a] it draws:
    [with IncrementalNpzWriter('test.npz', 'w') as npzWriter:
       npzWriter.write("a", a)].
    The outer result is that of the construction. *)
Definition main_writer_block (np_save : Data -> Result (list byte)) (a : ndarray)
    (d : gmap string (list ZipInfo)) (s : list IO) : Result (Result unit * State) :=
  match __init__ "test.npz" "w" false with
  | Ok npzWriter => Ok (scoped (write np_save "a" (NdArray a)) (boot npzWriter d s))
  | Raise e => Raise e
  end.

(** The entry that stands for one item [(key, data)] in an archive written
    with compression [c]: the encoded data, with its size, under the name
    [ZipInfo] keeps of [key + '.npy'], when the encoder accepts the data. *)
Definition entry_for (np_save : Data -> Result (list byte)) (c : Compression)
    (item : string * Data) : option ZipInfo :=
  match np_save (snd item) with
  | Ok buf =>
      Some (mk_ZipInfo (zipfile.ZipInfo_filename (fst item +:+ ".npy")) c true
              (length buf) buf)
  | Raise _ => None
  end.

Definition entries_for (np_save : Data -> Result (list byte)) (c : Compression)
    (items : list (string * Data)) : list ZipInfo :=
  omap (entry_for np_save c) items.

(** The encoder accepts the data of every item. *)
Definition encodable (np_save : Data -> Result (list byte))
    (items : list (string * Data)) : Prop :=
  Forall (fun item => is_Ok (np_save (snd item)) = true) items.

(** The entry name of every item fits. *)
Definition names_fit (items : list (string * Data)) : Prop :=
  Forall (fun item => name_fits (fst item)) items.

(** The key ['k' * n]. *)
Definition sample_key (n : nat) : string := string_of_list_ascii (repeat "k"%char n).

(** The key ['a' + chr(0) + 'b']. *)
Definition sample_nul_key : string := String "a" (String NUL "b").

(** * Properties of the model *)

(** ** Rules for frames *)

Section Preserves.
Context (R : State -> State -> Prop) `{!PreOrder R}.

Lemma preserves_ret {A} (a : A) : preserves R (ret a).
Proof. intros st. reflexivity. Qed.

Lemma preserves_mret {A} (a : A) : preserves R (mret a).
Proof. intros st. reflexivity. Qed.

Lemma preserves_raise {A} e : preserves R (@raise A e).
Proof. intros st. reflexivity. Qed.

Lemma preserves_lift {A} (r : Result A) : preserves R (lift r).
Proof. intros st. reflexivity. Qed.

Lemma preserves_get : preserves R get.
Proof. intros st. reflexivity. Qed.

Lemma preserves_deref h : preserves R (zipfile.deref h).
Proof. intros st. unfold zipfile.deref. destruct (heap st !! h); reflexivity. Qed.

Lemma preserves_bind {A B} (c : M A) (k : A -> M B) :
  preserves R c -> (forall a, preserves R (k a)) -> preserves R (c ≫= k).
Proof.
  intros Hc Hk st. unfold mbind, M_bind, bind.
  specialize (Hc st). destruct (c st) as [[a|e] st1]; simpl in *; [|done].
  etrans; [exact Hc | apply Hk].
Qed.

Lemma preserves_try_finally {A} (body : M A) (cleanup : M unit) :
  preserves R body -> preserves R cleanup -> preserves R (try_finally body cleanup).
Proof.
  intros Hb Hc st. unfold try_finally.
  specialize (Hb st). destruct (body st) as [r st1]; simpl in *.
  specialize (Hc st1). destruct (cleanup st1) as [[[]|e] st2]; simpl in *;
    (etrans; [exact Hb | exact Hc]).
Qed.

End Preserves.

Lemma preserves_bind_val {A B} (R : State -> State -> Prop) `{!PreOrder R}
    (P : A -> Prop) (c : M A) (k : A -> M B) :
  preserves R c -> (forall st a, fst (c st) = Ok a -> P a) ->
  (forall a, P a -> preserves R (k a)) -> preserves R (c ≫= k).
Proof.
  intros Hc HP Hk st. unfold mbind, M_bind, bind.
  specialize (Hc st). specialize (HP st).
  destruct (c st) as [[a|e] st1]; simpl in *; [|done].
  etrans; [exact Hc | by apply Hk, HP].
Qed.

#[export] Instance same_archive_preorder : PreOrder same_archive.
Proof.
  split.
  - by intros z.
  - intros z1 z2 z3 (?&?&?&?) (?&?&?&?). repeat split; congruence.
Qed.

#[export] Instance touches_only_preorder h name : PreOrder (touches_only h name).
Proof.
  split.
  - intros st. split; try done.
    + intros z Hz. exists z. by split.
    + exists []. by rewrite app_nil_r.
  - intros st1 st2 st3 [S1 D1 L1 O1 A1 C1 T1] [S2 D2 L2 O2 A2 C2 T2].
    split; try congruence.
    + intros i Hi. rewrite O2, O1; done.
    + intros z Hz. destruct (A1 z Hz) as (z2 & Hz2 & Hs2).
      destruct (A2 z2 Hz2) as (z3 & Hz3 & Hs3).
      exists z3. split; [done|]. by etrans.
    + by etrans.
    + destruct T1 as (e1 & E1 & F1). destruct T2 as (e2 & E2 & F2).
      exists (e1 ++ e2). rewrite E2, E1, app_assoc. split; [done|].
      by apply Forall_app.
Qed.

Section TouchesPrimitives.
Context (h : nat) (name : string).

Lemma touches_emit e : entry_event h name e -> preserves (touches_only h name) (emit e).
Proof.
  intros He st. unfold emit, modify; simpl. split; simpl; try done.
  - intros z Hz. exists z. by split.
  - exists [e]. split; [done|]. by constructor.
Qed.

Lemma touches_request : preserves (touches_only h name) zipfile.request.
Proof.
  intros st. unfold zipfile.request.
  assert (Hs : forall s, suffix s (script st) -> touches_only h name st (set_script s st)).
  { intros s Hs. split; simpl; try done.
    - intros z Hz. exists z. by split.
    - exists []. by rewrite app_nil_r. }
  destruct (script st) as [|[|e] s] eqn:E; simpl.
  - reflexivity.
  - apply Hs. by apply suffix_cons_r.
  - apply Hs. by apply suffix_cons_r.
Qed.

Lemma touches_fp_write z : preserves (touches_only h name) (zipfile.fp_write z).
Proof.
  unfold zipfile.fp_write. destruct (zf_filename z).
  - apply touches_request.
  - apply preserves_raise. apply _.
Qed.

Lemma touches_update (f : ZipFile -> ZipFile) :
  (forall z, same_archive z (f z)) -> preserves (touches_only h name) (zipfile.update h f).
Proof.
  intros Hf st. unfold zipfile.update, zipfile.deref, mbind, M_bind, bind, modify.
  destruct (heap st !! h) as [z|] eqn:E; simpl; [|reflexivity].
  split; simpl; try done.
  - by rewrite length_insert.
  - intros i Hi. by rewrite list_lookup_insert_ne.
  - intros z0 Hz0. exists (f z). split.
    + apply list_lookup_insert_eq. by eapply lookup_lt_Some.
    + rewrite E in Hz0. injection Hz0 as <-. apply Hf.
  - exists []. by rewrite app_nil_r.
Qed.

End TouchesPrimitives.

(** ** Writing an entry leaves the rest alone *)

Lemma same_archive_didModify b z : same_archive z (zipfile.zf_set_didModify b z).
Proof. by repeat split. Qed.
Lemma same_archive_writing w z : same_archive z (zipfile.zf_set_writing w z).
Proof. by repeat split. Qed.
Lemma same_archive_filelist l z : same_archive z (zipfile.zf_set_filelist l z).
Proof. by repeat split. Qed.

(** A frame proof walks down the computation: a rule for its head, or a case
    split on what it branches on. *)
Ltac frame_rule :=
  first
    [ apply preserves_ret | apply preserves_mret | apply preserves_raise
    | apply preserves_lift | apply preserves_get | apply preserves_deref
    | apply touches_request | apply touches_fp_write
    | apply touches_emit; by simpl
    | apply touches_update; intros;
      first [ apply same_archive_didModify | apply same_archive_writing
            | apply same_archive_filelist ]
    | apply preserves_try_finally | apply preserves_bind ];
  try apply _.

Ltac frame :=
  repeat first
    [ progress intros
    | frame_rule
    | match goal with
      | |- preserves _ (if ?b then _ else _) => destruct b
      | |- preserves _ (match ?x with _ => _ end) => destruct x
      end ].

Section TouchesCalls.
Context (h : nat) (name : string).

Lemma touches_open_to_write z nm :
  preserves (touches_only h name) (zipfile._open_to_write h z nm true).
Proof.
  unfold zipfile._open_to_write, zipfile.FileHeader. frame.
Qed.

Lemma touches_ZipFile_open m :
  preserves (touches_only h name) (zipfile.ZipFile_open h name m true).
Proof.
  unfold zipfile.ZipFile_open, zipfile.getinfo. frame.
  apply touches_open_to_write.
Qed.

Lemma ZipFile_open_channel nm m fz st c :
  fst (zipfile.ZipFile_open h nm m fz st) = Ok c -> channel_of h c.
Proof.
  unfold zipfile.ZipFile_open, zipfile._open_to_write, zipfile.FileHeader,
    zipfile.getinfo,
    zipfile.update, zipfile.deref, zipfile.fp_write, zipfile.request,
    emit, modify, mbind, M_bind, bind, ret, mret, M_ret, raise; simpl.
  repeat (match goal with
          | |- context [if ?b then _ else _] => destruct b
          | |- context [match ?x with _ => _ end] => destruct x eqn:?
          end; simpl; try discriminate);
    intros [= <-]; done.
Qed.

Lemma touches_write c buf :
  channel_of h c -> preserves (touches_only h name) (zipfile.write c buf).
Proof.
  intros Hc. unfold zipfile.write. destruct c as [h'|h' zi]; simpl in Hc; subst h'.
  - cbv zeta. frame.
  - frame.
Qed.

Lemma touches_close c :
  channel_of h c -> preserves (touches_only h name) (zipfile.close c).
Proof.
  intros Hc. unfold zipfile.close, zipfile.finish_entry. destruct c as [h'|h' zi]; simpl in Hc; subst h'.
  - frame.
  - frame.
Qed.

Lemma touches_write_each c bufs :
  channel_of h c -> preserves (touches_only h name) (shutil.write_each c bufs).
Proof.
  intros Hc. induction bufs as [|buf bufs IH]; simpl.
  - frame.
  - apply preserves_bind; [apply _ | by apply touches_write | done].
Qed.

Lemma touches_copyfileobj fsrc c n :
  channel_of h c -> preserves (touches_only h name) (shutil.copyfileobj fsrc c n).
Proof. intros Hc. unfold shutil.copyfileobj. by apply touches_write_each. Qed.

End TouchesCalls.

(** [write] leaves everything alone but the archive it writes to; without
    an archive object it changes nothing. *)
Lemma write_touches np_save key data st :
  match file (self st) with
  | Some h => touches_only h (key +:+ ".npy") st (snd (write np_save key data st))
  | None => snd (write np_save key data st) = st
  end.
Proof.
  unfold write, timing, lift, mbind, M_bind, bind, get.
  destruct (np_save data) as [buf|e]; simpl.
  2: { destruct (file (self st)); [reflexivity | done]. }
  destruct (file (self st)) as [h|] eqn:E; [|done].
  apply (preserves_bind_val _ (channel_of h)).
  - apply touches_ZipFile_open.
  - intros st0 c. apply ZipFile_open_channel.
  - intros c Hc. apply preserves_try_finally; try apply _.
    + by apply touches_copyfileobj.
    + by apply touches_close.
Qed.

(** ** What the calls into [zipfile] do to an open archive *)

Lemma tuple_in_true x t : tuple_in x t = true <-> x ∈ t.
Proof. unfold tuple_in. apply bool_decide_eq_true. Qed.

(** State updates and heap look-ups, simplified. *)
Ltac simpl_state :=
  unfold set_heap, set_trace, set_script, set_self, set_disk in *; cbn in *.

Ltac heap_lookup :=
  repeat (progress
    (rewrite ?list_insert_insert_eq;
     rewrite ?list_lookup_insert_eq by (rewrite ?length_insert; first [done | lia]);
     cbn)).

(** Unfolding the monad down to the requests to the medium. *)
Ltac run_monad :=
  unfold zipfile.update, zipfile.deref, zipfile.fp_write, emit, modify,
    mbind, M_bind, bind, mret, M_ret, ret, raise, get, lift, try_finally in *;
  simpl in *.

Section OpenEntry.
Context (h : nat).

(** Opening an entry for writing on an open archive: the name of the entry
    is the one [ZipInfo] keeps, and the only failures are a name that does
    not fit and a refusal of the medium. *)
Lemma open_entry_result name fz st z :
  heap st !! h = Some z -> zf_fp z = true -> zf_writing z = None ->
  tuple_in (zf_mode z) ["w"; "x"; "a"] = true ->
  let nm := zipfile.ZipInfo_filename name in
  match zipfile.ZipFile_open h name "w" fz st with
  | (Ok c, st') =>
      c = WriteChannel h
      /\ heap st' !! h =
         Some (zipfile.zf_set_writing
                 (Some (mk_ZipWriteFile nm (zf_compression z) fz 0 []))
                 (zipfile.zf_set_didModify true z))
      /\ (reliable st -> reliable st')
      /\ (Z.of_nat (String.length nm) <= 65535)%Z
  | (Raise e, st') =>
      heap st' !! h = Some (zipfile.zf_set_didModify true z)
      /\ (is_Some (zf_filename z) -> (Z.of_nat (String.length nm) <= 65535)%Z ->
          ~ reliable st)
      /\ (~ (Z.of_nat (String.length nm) <= 65535)%Z ->
          e = StructError "ushort format requires 0 <= number <= 65535")
  end.
Proof.
  intros Hz Hfp Hw Hm nm.
  assert (Hlt : h < length (heap st)) by by eapply lookup_lt_Some.
  unfold zipfile.ZipFile_open, zipfile._open_to_write, zipfile.FileHeader. run_monad.
  repeat (progress (rewrite ?Hz, ?Hfp, ?Hw, ?Hm; simpl)).
  fold nm.
  destruct (Z.of_nat (String.length nm) <=? 65535)%Z eqn:Elen; simpl.
  2: { apply Z.leb_gt in Elen. rewrite list_lookup_insert_eq by done.
       split; [done|]. split; [intros _ ?; lia | done]. }
  apply Z.leb_le in Elen.
  destruct (zf_filename z) as [p|] eqn:Ep; simpl.
  - unfold zipfile.request; simpl. unfold reliable.
    destruct (script st) as [|[|e] s] eqn:Es; simpl_state; heap_lookup;
      rewrite ?Es; try done.
    + repeat split; try done. intros H. by apply Forall_cons in H as [_ H].
    + split; [done|]. split; [|done]. intros _ _ H. by apply Forall_cons in H as [? _].
  - rewrite list_lookup_insert_eq by done. split; [done|]. split; [by intros [? ?] | done].
Qed.

End OpenEntry.

Lemma request_run st :
  exists r st', zipfile.request st = (r, st')
    /\ heap st' = heap st /\ self st' = self st
    /\ (reliable st -> r = Ok tt /\ reliable st')
    /\ trace st' = trace st /\ disk st' = disk st.
Proof.
  unfold zipfile.request, reliable.
  destruct (script st) as [|[|e] s] eqn:E; eexists _, _; (split; [done|]);
    simpl; (split; [done|]); (split; [done|]); rewrite ?E;
    (split; [|done]); intros H.
  - done.
  - by apply Forall_cons in H as [_ H].
  - by apply Forall_cons in H as [? _].
Qed.

(** Name the outcome of the next request to the medium. *)
Ltac next_request st :=
  let r := fresh "r" in let st' := fresh "st" in
  let E := fresh "E" in let Hh := fresh "Hheap" in
  let Hs := fresh "Hself" in let Hr := fresh "Hrel" in
  let Ht := fresh "Htrace" in let Hd := fresh "Hdisk" in
  destruct (request_run st) as (r & st' & E & Hh & Hs & Hr & Ht & Hd);
  rewrite E; cbn.

Lemma zw_add_nil w : zw_add w 0 [] = w.
Proof.
  destruct w. unfold zw_add, zipfile.zw_append, zipfile.zw_count; simpl.
  by rewrite app_nil_r, Nat.add_0_r.
Qed.

Lemma zw_add_add w n1 d1 n2 d2 :
  zw_add (zw_add w n1 d1) n2 d2 = zw_add w (n1 + n2) (d1 ++ d2).
Proof.
  unfold zw_add, zipfile.zw_append, zipfile.zw_count; simpl.
  by rewrite app_assoc, Nat.add_assoc.
Qed.

Lemma zf_set_writing_id z w : zf_writing z = Some w -> zipfile.zf_set_writing (Some w) z = z.
Proof. destruct z; simpl. by intros ->. Qed.

Lemma zf_set_writing_twice z w w' :
  zipfile.zf_set_writing w' (zipfile.zf_set_writing w z) = zipfile.zf_set_writing w' z.
Proof. done. Qed.

Section WriteEntry.
Context (h : nat).

(** One [write] on the channel of an entry that is open for writing: the
    chunk is counted whether the medium accepts it or not. *)
Lemma entry_write_result buf st z w :
  heap st !! h = Some z -> zf_writing z = Some w ->
  match zipfile.write (WriteChannel h) buf st with
  | (Ok _, st') =>
      heap st' !! h = Some (zipfile.zf_set_writing (Some (zw_add w (length buf) buf)) z)
      /\ (reliable st -> reliable st')
  | (Raise _, st') =>
      heap st' !! h = Some (zipfile.zf_set_writing (Some (zw_add w (length buf) [])) z)
      /\ (is_Some (zf_filename z) -> ~ reliable st)
  end.
Proof.
  intros Hz Hw.
  assert (Hlt : h < length (heap st)) by by eapply lookup_lt_Some.
  assert (Hnil : zw_add w (length buf) [] = zipfile.zw_count w (length buf)).
  { unfold zw_add, zipfile.zw_append; simpl. by rewrite app_nil_r. }
  rewrite Hnil. unfold zw_add.
  unfold zipfile.write. run_monad.
  repeat (progress (rewrite ?Hz, ?Hw; simpl)).
  destruct (zf_filename z) as [p|] eqn:Ep; simpl.
  - set (st0 := set_heap _ _).
    assert (Hr0 : reliable st -> reliable st0) by done.
    assert (Hz0 : heap st0 !! h
                  = Some (zipfile.zf_set_writing (Some (zipfile.zw_count w (length buf))) z)).
    { subst st0. simpl_state. by heap_lookup. }
    next_request st0.
    destruct r as [[]|e]; cbn.
    + rewrite Hheap, Hz0. simpl_state. rewrite Hheap. subst st0. simpl_state. heap_lookup.
      split; [done|]. intros H. by apply Hrel, Hr0.
    + rewrite Hheap, Hz0. split; [done|]. intros _ H.
      by destruct (Hrel (Hr0 H)) as [? _].
  - simpl_state. heap_lookup. split; [done|]. by intros [? ?].
Qed.

(** The loop of [copyfileobj] on such a channel: the medium receives a
    prefix of the chunks, all of them when the loop returns; the size that
    is counted includes a chunk the medium refused. *)
Lemma write_each_result bufs : forall st z w,
  heap st !! h = Some z -> zf_writing z = Some w ->
  exists n d,
    heap (snd (shutil.write_each (WriteChannel h) bufs st)) !! h
    = Some (zipfile.zf_set_writing (Some (zw_add w n d)) z)
    /\ d `prefix_of` concat bufs
    /\ length d <= n <= length (concat bufs)
    /\ (fst (shutil.write_each (WriteChannel h) bufs st) = Ok tt ->
        d = concat bufs /\ n = length (concat bufs))
    /\ (is_Some (zf_filename z) -> reliable st ->
        fst (shutil.write_each (WriteChannel h) bufs st) = Ok tt
        /\ reliable (snd (shutil.write_each (WriteChannel h) bufs st))).
Proof.
  induction bufs as [|buf bufs IH]; intros st z w Hz Hw; simpl.
  - exists 0, []. rewrite zw_add_nil, zf_set_writing_id by done. by repeat split.
  - pose proof (entry_write_result buf st z w Hz Hw) as H1.
    unfold mbind, M_bind, bind.
    destruct (zipfile.write (WriteChannel h) buf st) as [[n|e] st1]; simpl.
    + destruct H1 as [Hz1 Hrel1].
      destruct (IH st1 _ (zw_add w (length buf) buf) Hz1 eq_refl)
        as (n' & d & Hd & Hpre & Hlen & Hok & Hrel).
      exists (length buf + n'), (buf ++ d).
      rewrite zf_set_writing_twice, zw_add_add in Hd.
      split; [done|]. split; [by apply prefix_app|].
      split; [rewrite !length_app; lia|]. split.
      * intros H. destruct (Hok H) as [-> ->]. by rewrite length_app.
      * intros Hf Hr. apply Hrel; [done | by apply Hrel1].
    + destruct H1 as [Hz1 Hrel1].
      exists (length buf), [].
      split; [done|]. split; [apply prefix_nil|].
      split; [rewrite length_app; simpl; lia|]. split; [done|].
      intros Hf Hr. by destruct (Hrel1 Hf).
Qed.

End WriteEntry.

Lemma update_run h f st z :
  heap st !! h = Some z ->
  zipfile.update h f st = (Ok tt, set_heap (<[h := f z]> (heap st)) st).
Proof. intros Hz. unfold zipfile.update. run_monad. by rewrite Hz. Qed.

Section CloseEntry.
Context (h : nat).

Lemma finish_entry_result st z w :
  heap st !! h = Some z -> zw_zip64 w = true ->
  match zipfile.finish_entry h z w st with
  | (Ok _, st') =>
      heap st' !! h
      = Some (zipfile.zf_set_filelist (zf_filelist z ++ [zipfile.zw_zinfo w]) z)
      /\ (reliable st -> reliable st')
  | (Raise _, st') =>
      heap st' !! h = Some z /\ (is_Some (zf_filename z) -> ~ reliable st)
  end.
Proof.
  intros Hz H64.
  assert (Hlt : h < length (heap st)) by by eapply lookup_lt_Some.
  unfold zipfile.finish_entry. run_monad. rewrite H64; cbn.
  destruct (zf_filename z) as [p|] eqn:Ep; cbn.
  2: { destruct (zw_compress_type w); cbn; (split; [done|]); by intros [? ?]. }
  destruct (zw_compress_type w); cbn.
  - next_request st. destruct r as [[]|e]; cbn.
    + rewrite Hheap, Hz. simpl_state. rewrite Hheap. heap_lookup.
      split; [done|]. intros H. by apply Hrel.
    + rewrite Hheap. split; [done|]. intros _ H. by destruct (Hrel H).
  - next_request st. destruct r as [[]|e]; cbn.
    + next_request st0. destruct r as [[]|e]; cbn.
      * rewrite Hheap0, Hheap, Hz. simpl_state. rewrite Hheap0, Hheap. heap_lookup.
        split; [done|]. intros H. apply Hrel0. by apply Hrel.
      * rewrite Hheap0, Hheap. split; [done|]. intros _ H.
        destruct (Hrel H) as [_ H']. by destruct (Hrel0 H').
    + rewrite Hheap. split; [done|]. intros _ H. by destruct (Hrel H).
Qed.

(** Closing the channel of an entry opened with ZIP64.  The size of the
    entry plays no role. *)
Lemma entry_close_result st z w :
  heap st !! h = Some z -> zf_writing z = Some w -> zw_zip64 w = true ->
  match zipfile.close (WriteChannel h) st with
  | (Ok _, st') =>
      heap st' !! h =
      Some (zipfile.zf_set_writing None
              (zipfile.zf_set_filelist (zf_filelist z ++ [zipfile.zw_zinfo w]) z))
      /\ (reliable st -> reliable st')
  | (Raise _, st') =>
      heap st' !! h = Some (zipfile.zf_set_writing None z)
      /\ (is_Some (zf_filename z) -> ~ reliable st)
  end.
Proof.
  intros Hz Hw H64.
  unfold zipfile.close.
  unfold emit, modify, zipfile.deref, mbind, M_bind, bind; cbn.
  rewrite Hz; cbn. rewrite Hw.
  set (st0 := set_trace _ st).
  pose proof (finish_entry_result st0 z w Hz H64) as H.
  unfold try_finally.
  destruct (zipfile.finish_entry h z w st0) as [[[]|e] st1]; destruct H as [Hz1 Hr].
  - rewrite (update_run _ _ _ _ Hz1). simpl_state.
    assert (h < length (heap st1)) by by eapply lookup_lt_Some.
    by heap_lookup.
  - rewrite (update_run _ _ _ _ Hz1). simpl_state.
    assert (h < length (heap st1)) by by eapply lookup_lt_Some.
    by heap_lookup.
Qed.

End CloseEntry.

(** ** [write] under mode ['w'] *)

Arguments shutil.COPY_BUFSIZE : simpl never.

Lemma COPY_BUFSIZE_pos : 0 < shutil.COPY_BUFSIZE.
Proof. unfold shutil.COPY_BUFSIZE. lia. Qed.

(** Reading a buffer chunk by chunk gives the buffer back. *)
Lemma concat_reads n data : 0 < n -> concat (io.reads n data) = data.
Proof.
  intros Hn. funelim (io.reads n data); simp reads; try lia; auto.
  simpl. rewrite H by lia. f_equal. apply take_drop.
Qed.

Lemma copyfileobj_default fsrc c :
  shutil.copyfileobj fsrc c 0 = shutil.write_each c (io.reads shutil.COPY_BUFSIZE fsrc).
Proof. done. Qed.

Section WriteW.
Context (np_save : Data -> Result (list byte)).
Context (h : nat).

(** [write] on an open archive whose writer has mode ['w']. *)
Lemma write_w_result key data buf st z :
  file (self st) = Some h -> mode (self st) = "w" -> np_save data = Ok buf ->
  heap st !! h = Some z -> zf_fp z = true -> zf_writing z = None ->
  tuple_in (zf_mode z) ["w"; "x"; "a"] = true ->
  let name := zipfile.ZipInfo_filename (key +:+ ".npy") in
  let r := fst (write np_save key data st) in
  let st' := snd (write np_save key data st) in
  exists z', heap st' !! h = Some z' /\ zf_writing z' = None /\ zf_didModify z' = true
    /\ (r = Ok tt ->
        zf_filelist z'
        = zf_filelist z ++ [mk_ZipInfo name (zf_compression z) true (length buf) buf])
    /\ (zf_filelist z' = zf_filelist z
        \/ exists n d, d `prefix_of` buf /\ length d <= n <= length buf
           /\ zf_filelist z'
              = zf_filelist z ++ [mk_ZipInfo name (zf_compression z) true n d])
    /\ (is_Some (zf_filename z) -> name_fits key -> reliable st ->
        r = Ok tt /\ reliable st')
    /\ (~ name_fits key ->
        r = Raise (StructError "ushort format requires 0 <= number <= 65535")
        /\ zf_filelist z' = zf_filelist z).
Proof.
  intros Hf Hm Hs Hz Hfp Hw Hmz name r st'. subst r st'.
  destruct (write np_save key data st) as [r st'] eqn:E; simpl.
  unfold write, timing, with_, lift, mbind, M_bind, bind, get in E.
  rewrite Hs, Hf, Hm in E.
  pose proof (open_entry_result h (key +:+ ".npy") true st z Hz Hfp Hw Hmz) as Ho.
  cbv zeta in Ho. fold name in Ho. unfold name_fits. fold name.
  destruct (zipfile.ZipFile_open h (key +:+ ".npy") "w" true st) as [[c|e] st1].
  - destruct Ho as (-> & Hz1 & Hrel1 & Hfit). rewrite copyfileobj_default in E.
    unfold try_finally in E.
    set (w0 := mk_ZipWriteFile name (zf_compression z) true 0 []) in *.
    set (z1 := zipfile.zf_set_writing (Some w0) (zipfile.zf_set_didModify true z)) in *.
    destruct (write_each_result h (io.reads shutil.COPY_BUFSIZE buf) st1 z1 w0 Hz1 eq_refl)
      as (n & d & Hz2 & Hpre & Hlen & Hok & Hrel2).
    rewrite concat_reads in Hok, Hpre, Hlen by apply COPY_BUFSIZE_pos.
    destruct (shutil.write_each (WriteChannel h) (io.reads shutil.COPY_BUFSIZE buf) st1)
      as [r2 st2]. simpl in Hz2, Hok, Hrel2, Hpre.
    set (z2 := zipfile.zf_set_writing (Some (zw_add w0 n d)) z1) in *.
    pose proof (entry_close_result h st2 z2 (zw_add w0 n d) Hz2 eq_refl eq_refl) as Hc.
    destruct (zipfile.close (WriteChannel h) st2) as [[[]|e] st3];
      injection E as <- <-; destruct Hc as [Hz3 Hrel3];
      (eexists; split; [exact Hz3|]; split; [done|]; split; [done|]).
    + split; [|split; [|split]].
      * intros ->. by destruct (Hok eq_refl) as [-> ->].
      * right. by exists n, d.
      * intros Hfn _ Hr. destruct (Hrel2 Hfn (Hrel1 Hr)) as [-> Hr2]. auto.
      * intros Hno. by destruct Hno.
    + split; [done|]. split; [by left|]. split.
      * intros Hfn _ Hr.
        destruct (Hrel2 Hfn (Hrel1 Hr)) as [_ Hr2]. by destruct (Hrel3 Hfn).
      * intros Hno. by destruct Hno.
  - injection E as <- <-. destruct Ho as (Hz1 & Hn & Hlong).
    eexists. split; [exact Hz1|]. split; [done|]. split; [done|].
    split; [done|]. split; [by left|]. split.
    + intros Hfn Hfit Hr. by destruct (Hn Hfn Hfit).
    + intros Hno. by rewrite (Hlong Hno).
Qed.

End WriteW.

(** ** The methods of the writer *)

(** Case analysis on everything a computation branches on. *)
Ltac split_cases :=
  repeat (match goal with
          | |- context [match ?x with _ => _ end] => destruct x eqn:?
          | |- context [if ?b then _ else _] => destruct b eqn:?
          end; simpl_state).

(** *** [__init__] *)

Arguments str_in : simpl never.

Lemma prefix_cases m s :
  String.prefix m s = true -> m = substring 0 (String.length m) s.
Proof. intros H. symmetry. by apply prefix_correct. Qed.

Lemma str_in_xwa m :
  str_in m "xwa" = true <-> m ∈ [""; "x"; "w"; "a"; "xw"; "wa"; "xwa"].
Proof.
  split.
  - unfold str_in. rewrite !orb_true_iff.
    intros [H|[H|[H|[H|H]]]]; try discriminate H;
      apply prefix_cases in H;
      destruct (String.length m) as [|[|[|[|n]]]]; simpl in H; subst m; set_solver.
  - rewrite !elem_of_cons, elem_of_nil. intros H. by decompose [or] H; subst.
Qed.

Lemma init_unopened p m c w d s :
  __init__ p m c = Ok w -> unopened (boot w d s).
Proof.
  unfold __init__. destruct (str_in m "xwa") eqn:E; [|done].
  intros [= <-]. unfold unopened; simpl.
  split; [done|]. split; [by eexists | done].
Qed.

(** *** [openFile] *)

Lemma io_open_frame p m st :
  heap (snd (zipfile.io_open p m st)) = heap st
  /\ trace (snd (zipfile.io_open p m st)) = trace st
  /\ self (snd (zipfile.io_open p m st)) = self st.
Proof.
  unfold zipfile.io_open. run_monad. next_request st.
  destruct r as [[]|e]; cbn; [|done]. by split_cases.
Qed.

(** [openFile] on a writer that was constructed and not opened: when it
    returns, there is one more [ZipFile] object, open, and the writer refers
    to it; when it raises, there is no new object and the writer is as
    before. *)
Lemma openFile_result st :
  unopened st ->
  match openFile st with
  | (Ok _, st') =>
      opened (length (heap st)) st' /\ exists z, heap st' = heap st ++ [z]
  | (Raise _, st') => heap st' = heap st /\ self st' = self st
  end
  /\ trace (snd (openFile st))
     = trace st ++ [CallZipFile (tofile (self st)) (mode (self st)) (compression (self st))].
Proof.
  intros (Hfile & [p Hp] & Hxwa). unfold openFile, zipfile.ZipFile_init, zipfile.alloc.
  unfold get, emit, modify, mbind, M_bind, bind, raise; cbn. rewrite Hp.
  destruct (tuple_in (mode (self st)) ["r"; "w"; "x"; "a"]) eqn:Hm; cbn; [|done].
  set (st0 := set_trace _ st).
  destruct (io_open_frame p (mode (self st)) st0) as (Hh & Ht & Hs).
  destruct (zipfile.io_open p (mode (self st)) st0) as [[found|e] st1]; cbn in *.
  2: { by rewrite Hh, Hs, Ht. }
  rewrite Hh, Hs, Ht. split; [|done].
  assert (Hwxa : tuple_in (mode (self st)) ["w"; "x"; "a"] = true).
  { apply str_in_xwa in Hxwa. rewrite !elem_of_cons, elem_of_nil in Hxwa.
    destruct Hxwa as [H|[H|[H|[H|[H|[H|[H|[]]]]]]]];
      rewrite H in Hm |- *; by vm_compute in Hm |- *. }
  split; [|by eexists].
  unfold opened; cbn. split; [done|]. rewrite Hp.
  split; [by eexists|]. eexists. split.
  { rewrite lookup_app_r by done. by rewrite Nat.sub_diag. }
  by repeat split.
Qed.

(** *** [close] *)

(** The guard of [close]: with [tofile] set to [None], nothing happens. *)
Lemma close_closed st : tofile (self st) = None -> close st = (Ok tt, st).
Proof. intros H. unfold close, get, mbind, M_bind, bind; cbn. by rewrite H. Qed.

(** Without an archive object, [close] fails on [self.file.close()]. *)
Lemma close_without_file st :
  is_Some (tofile (self st)) -> file (self st) = None ->
  close st = (Raise (AttributeError "'NoneType' object has no attribute 'close'"), st).
Proof.
  intros [p Hp] Hf. unfold close, get, mbind, M_bind, bind; cbn.
  by rewrite Hp, Hf.
Qed.

(** [ZipFile.close] on a closed archive. *)
Lemma ZipFile_close_closed h st z :
  heap st !! h = Some z -> zf_fp z = false ->
  zipfile.ZipFile_close h st = (Ok tt, set_trace (trace st ++ [CallClose h]) st).
Proof.
  intros Hz Hfp. unfold zipfile.ZipFile_close. run_monad. by rewrite Hz, Hfp.
Qed.

(** [ZipFile.close] on an open archive with no entry in writing: the
    archive is closed whatever the medium answers. *)
Lemma ZipFile_close_result h st z :
  heap st !! h = Some z -> zf_fp z = true -> zf_writing z = None ->
  is_Some (zf_filename z) ->
  match zipfile.ZipFile_close h st with
  | (r, st') =>
      heap st' = <[h := zipfile.zf_set_fp false z]> (heap st)
      /\ self st' = self st
      /\ trace st' = trace st ++ [CallClose h]
      /\ match r with
         | Ok _ =>
             (reliable st -> reliable st')
             /\ (tuple_in (zf_mode z) ["w"; "x"; "a"] && zf_didModify z = true ->
                 forall p, zf_filename z = Some p ->
                           disk st' = <[p := zf_filelist z]> (disk st))
         | Raise e =>
             (exists errno, e = OSError errno) /\ ~ reliable st
             /\ disk st' = disk st
             /\ tuple_in (zf_mode z) ["w"; "x"; "a"] && zf_didModify z = true
         end
  end.
Proof.
  intros Hz Hfp Hw [p Hp].
  unfold zipfile.ZipFile_close, zipfile._write_end_record. run_monad.
  rewrite Hz; cbn. rewrite Hfp, Hw; cbn.
  destruct (tuple_in (zf_mode z) ["w"; "x"; "a"] && zf_didModify z) eqn:Hmod; cbn.
  - rewrite Hp; cbn.
    next_request (set_trace (trace st ++ [CallClose h]) st).
    destruct r as [[]|e]; cbn.
    + repeat (progress (rewrite ?Hheap, ?Hself, ?Htrace, ?Hdisk, ?Hz; simpl_state)).
      repeat split; try done.
      * intros H. by apply Hrel.
      * by intros _ ? [= <-].
    + repeat (progress (rewrite ?Hheap, ?Hself, ?Htrace, ?Hdisk, ?Hz; simpl_state)).
      repeat split; try done.
      * unfold zipfile.request in E. simpl_state.
        destruct (script st) as [|[|e'] s]; try discriminate E.
        injection E as <- _. by eexists.
      * intros H. by destruct (Hrel H).
  - rewrite Hz. simpl_state. by repeat split.
Qed.

(** [close] on an opened writer. *)
Lemma close_opened_result h st :
  opened h st ->
  exists z, heap st !! h = Some z /\
  match close st with
  | (r, st') =>
      heap st' = <[h := zipfile.zf_set_fp false z]> (heap st)
      /\ trace st' = trace st ++ [CallClose h]
      /\ file (self st') = Some h /\ mode (self st') = mode (self st)
      /\ match r with
         | Ok _ =>
             tofile (self st') = None /\ (reliable st -> reliable st')
             /\ (zf_didModify z = true ->
                 forall p, tofile (self st) = Some p ->
                           disk st' = <[p := zf_filelist z]> (disk st))
         | Raise e =>
             tofile (self st') = tofile (self st)
             /\ (exists errno, e = OSError errno) /\ ~ reliable st
             /\ disk st' = disk st
         end
  end.
Proof.
  intros (Hf & [p Hp] & z & Hz & Hfp & Hw & Hn & Hm & Hc & Hwxa).
  exists z. split; [done|].
  assert (Hsome : is_Some (zf_filename z)) by (rewrite Hn, Hp; by eexists).
  pose proof (ZipFile_close_result h st z Hz Hfp Hw Hsome) as H.
  unfold close, get, modify, mbind, M_bind, bind; cbn. rewrite Hp, Hf.
  destruct (zipfile.ZipFile_close h st) as [[[]|e] st1]; cbn.
  - destruct H as (Hh & Hs & Ht & Hr & Hd). rewrite Hs, Hf. repeat split; try done.
    intros Hmod q [= <-]. apply Hd; [|by rewrite Hn]. by rewrite Hwxa, Hmod.
  - destruct H as (Hh & Hs & Ht & He & Hr & Hd & _). rewrite Hs, Hf, Hp.
    by repeat split.
Qed.

Section WriteOpened.
Context (np_save : Data -> Result (list byte)).

(** When the encoder raises, [write] raises the same and nothing else
    happens. *)
Lemma write_encoder_raises key data e st :
  np_save data = Raise e -> write np_save key data st = (Raise e, st).
Proof.
  intros H. unfold write, timing, lift, mbind, M_bind, bind. by rewrite H.
Qed.

(** With a writer mode other than ['w'] (and ['r']), [ZipFile.open]
    refuses the mode it is passed: the only effect is the call. *)
Lemma write_mode_refused key data buf h st :
  np_save data = Ok buf -> file (self st) = Some h ->
  tuple_in (mode (self st)) ["r"; "w"] = false ->
  write np_save key data st
  = (Raise (ValueError "open() requires mode 'r' or 'w'"),
     set_trace (trace st ++ [CallOpen h (key +:+ ".npy") (mode (self st)) true]) st).
Proof.
  intros Hs Hf Hm.
  unfold write, timing, with_, lift, zipfile.ZipFile_open.
  unfold emit, modify, get, raise, mbind, M_bind, bind.
  by rewrite Hs, Hf, Hm.
Qed.

Lemma opened_mode h st :
  opened h st -> mode (self st) = "w" \/ tuple_in (mode (self st)) ["r"; "w"] = false.
Proof.
  intros (_ & _ & z & _ & _ & _ & _ & Hm & _ & Hwxa). rewrite Hm in Hwxa.
  apply tuple_in_true in Hwxa. rewrite !elem_of_cons, elem_of_nil in Hwxa.
  destruct Hwxa as [H|[H|[H|[]]]]; rewrite H; auto.
Qed.

(** [write] on an opened writer. *)
Lemma write_opened_result key data h st :
  opened h st ->
  let name := zipfile.ZipInfo_filename (key +:+ ".npy") in
  match write np_save key data st with
  | (r, st') =>
      opened h st' /\ touches_only h (key +:+ ".npy") st st'
      /\ match np_save data with
         | Raise e => r = Raise e /\ st' = st
         | Ok buf =>
             (mode (self st) <> "w" ->
              r = Raise (ValueError "open() requires mode 'r' or 'w'")
              /\ entries h st' = entries h st)
             /\ (mode (self st) = "w" ->
                 (r = Ok tt ->
                  entries h st'
                  = entries h st
                    ++ [mk_ZipInfo name (compression (self st)) true (length buf) buf])
                 /\ (entries h st' = entries h st
                     \/ exists n d, d `prefix_of` buf /\ length d <= n <= length buf
                        /\ entries h st'
                           = entries h st
                             ++ [mk_ZipInfo name (compression (self st)) true n d])
                 /\ (name_fits key -> reliable st -> r = Ok tt /\ reliable st')
                 /\ (~ name_fits key ->
                     r = Raise (StructError "ushort format requires 0 <= number <= 65535")
                     /\ entries h st' = entries h st)
                 /\ (exists z', heap st' !! h = Some z' /\ zf_didModify z' = true))
         end
  end.
Proof.
  intros Hop name.
  pose proof (write_touches np_save key data st) as Ht.
  pose proof Hop as (Hf & [p Hp] & z & Hz & Hfp & Hw & Hn & Hm & Hc & Hwxa).
  rewrite Hf in Ht.
  destruct (np_save data) as [buf|e] eqn:Hs.
  2: { rewrite (write_encoder_raises _ _ _ _ Hs). by split; [|split; [reflexivity|]]. }
  destruct (opened_mode h st Hop) as [Hmw|Hmx].
  - pose proof (write_w_result np_save h key data buf st z Hf Hmw Hs Hz Hfp Hw Hwxa) as H.
    cbn zeta in H. fold name in H.
    destruct (write np_save key data st) as [r st']. simpl in H, Ht.
    destruct H as (z' & Hz' & Hw' & Hmod & Hok & Hany & Hrel & Hlong).
    destruct (to_archive _ _ _ _ Ht z Hz) as (z2 & Hz2 & Hfp2 & Hm2 & Hn2 & Hc2).
    rewrite Hz' in Hz2. injection Hz2 as <-.
    split; [|split; [done|split; [done|]]].
    + unfold opened. rewrite (to_self _ _ _ _ Ht). split; [done|].
      split; [by eexists|]. exists z'. rewrite Hfp2, Hm2, Hn2, Hc2. by repeat split.
    + intros _. unfold entries. rewrite Hz, Hz', <- Hc. split; [done|].
      split; [done|]. split; [|split; [done|by eexists]].
      intros Hfit Hr. apply Hrel; [|done|done]. rewrite Hn, Hp. by eexists.
  - rewrite (write_mode_refused _ _ _ _ _ Hs Hf Hmx) in *. simpl in Ht.
    split; [|split; [done|split]].
    + unfold opened; simpl_state. split; [done|]. split; [by eexists|].
      exists z. by repeat split.
    + by intros _.
    + intros Hmw. rewrite Hmw in Hmx. by vm_compute in Hmx.
Qed.

End WriteOpened.

(** *** Counting [ZipFile.close] calls *)

Lemma close_calls_app h t1 t2 :
  close_calls h (t1 ++ t2) = close_calls h t1 + close_calls h t2.
Proof. unfold close_calls. by rewrite filter_app, length_app. Qed.

Lemma close_calls_snoc_other h e t :
  is_close_call h e = false -> close_calls h (t ++ [e]) = close_calls h t.
Proof.
  intros He. rewrite close_calls_app. unfold close_calls at 2.
  rewrite filter_cons, decide_False by (by rewrite He). simpl. lia.
Qed.

Lemma close_calls_snoc_close h t :
  close_calls h (t ++ [CallClose h]) = S (close_calls h t).
Proof.
  rewrite close_calls_app. unfold close_calls at 2.
  rewrite filter_cons, decide_True; [simpl; lia|].
  simpl. by apply bool_decide_eq_true_2.
Qed.

Lemma close_calls_entry_events h h' name evs :
  Forall (entry_event h name) evs -> close_calls h' evs = 0.
Proof.
  unfold close_calls. induction 1 as [|e evs He _ IH]; [done|].
  rewrite filter_cons. destruct e; simpl in *; try done.
Qed.

Lemma touches_only_close_calls h name h' st st' :
  touches_only h name st st' ->
  close_calls h' (trace st') = close_calls h' (trace st).
Proof.
  intros [_ _ _ _ _ _ (evs & -> & Hevs)].
  rewrite close_calls_app, (close_calls_entry_events _ _ _ _ Hevs). lia.
Qed.

(** *** A list that differs from [l ++ [x]] in its last element only *)

Lemma snoc_replaced {A} (l l' : list A) x :
  length l' = length (l ++ [x]) ->
  (forall i, i <> length l -> l' !! i = (l ++ [x]) !! i) ->
  exists y, l' = l ++ [y] /\ l' !! length l = Some y.
Proof.
  intros Hlen Hi.
  destruct (l' !! length l) as [y|] eqn:Hy.
  2: { apply lookup_ge_None in Hy. rewrite Hlen, length_app in Hy. simpl in Hy. lia. }
  exists y. split; [|done]. apply list_eq. intros i.
  destruct (decide (i = length l)) as [->|Hne].
  - rewrite Hy, lookup_app_r by done. by rewrite Nat.sub_diag.
  - rewrite (Hi i Hne).
    destruct (decide (i < length l)).
    + by rewrite !lookup_app_l.
    + rewrite !lookup_ge_None_2; [done| |]; rewrite length_app; simpl; lia.
Qed.

(** *** A sequence of [write] on an opened writer *)

Lemma write_items_opened np_save items : forall h st,
  opened h st ->
  let st' := snd (write_items np_save items st) in
  opened h st'
  /\ length (heap st') = length (heap st)
  /\ (forall i, i <> h -> heap st' !! i = heap st !! i)
  /\ close_calls h (trace st') = close_calls h (trace st).
Proof.
  induction items as [|[key data] items IH]; intros h st Hop; simpl.
  - done.
  - pose proof (write_opened_result np_save key data h st Hop) as H.
    unfold mbind, M_bind, bind.
    destruct (write np_save key data st) as [[[]|e] st1];
      destruct H as (Hop1 & Ht & _); simpl.
    + destruct (IH h st1 Hop1) as (Hop2 & Hl & Ho & Hc).
      split; [done|]. split; [by rewrite Hl, (to_length _ _ _ _ Ht)|].
      split.
      * intros i Hi. by rewrite Ho, (to_others _ _ _ _ Ht).
      * by rewrite Hc, (touches_only_close_calls _ _ _ _ _ Ht).
    + split; [done|]. split; [by rewrite (to_length _ _ _ _ Ht)|].
      split; [by apply (to_others _ _ _ _ Ht)|].
      by rewrite (touches_only_close_calls _ _ _ _ _ Ht).
Qed.

(** *** The size limit of entries without ZIP64 *)

(** Without ZIP64, [_ZipWriteFile.close] refuses an entry beyond
    [ZIP64_LIMIT]: no such entry is registered. *)
Lemma finish_entry_needs_zip64 h st z w :
  zw_zip64 w = false ->
  (Z.of_nat (zw_file_size w) > zipfile.ZIP64_LIMIT)%Z ->
  is_Ok (fst (zipfile.finish_entry h z w st)) = false.
Proof.
  intros H64 Hbig. unfold zipfile.finish_entry. run_monad. rewrite H64; cbn.
  assert ((Z.of_nat (zw_file_size w) >? zipfile.ZIP64_LIMIT)%Z = true) as ->
    by (apply Z.gtb_lt; lia).
  destruct (zw_compress_type w); cbn; [done|].
  destruct (zf_filename z); cbn; [|done].
  next_request st. by destruct r as [[]|e].
Qed.

(** [ZipFile.open] starts by being called. *)
Lemma ZipFile_open_trace h name m st :
  exists evs,
    trace (snd (zipfile.ZipFile_open h name m true st))
    = trace st ++ CallOpen h name m true :: evs
    /\ Forall (entry_event h name) evs.
Proof.
  unfold zipfile.ZipFile_open. unfold mbind at 1. unfold M_bind, bind, emit, modify.
  cbn.
  set (rest := if negb (tuple_in m ["r"; "w"]) then _ else _).
  assert (Hrest : preserves (touches_only h name) rest).
  { subst rest. unfold zipfile.getinfo. frame. apply touches_open_to_write. }
  destruct (Hrest (set_trace (trace st ++ [CallOpen h name m true]) st))
    as [_ _ _ _ _ _ (evs & Ht & Hevs)].
  exists evs. split; [|done]. rewrite Ht. simpl. by rewrite <- app_assoc.
Qed.

(** ** Between two operations *)












(** ** Entry names *)

Lemma str_find_range c s : (str_find c s = -1 \/ 0 <= str_find c s < Z.of_nat (String.length s))%Z.
Proof.
  induction s as [|c' s IH]; simpl; [by left|].
  destruct (decide (c' = c)); [right; lia|].
  destruct IH as [->|IH]; [by left|].
  right. destruct (str_find c s <? 0)%Z eqn:E; [apply Z.ltb_lt in E|]; lia.
Qed.

(** A character that is not in [a] is found in [a + b] where it is in [b];
    one that is in [a] is found at the same place in [a + b]. *)
Lemma str_find_app_absent c a b :
  str_find c a = (-1)%Z -> str_find c b = (-1)%Z -> str_find c (a +:+ b) = (-1)%Z.
Proof.
  intros Ha Hb. induction a as [|c' a IH]; simpl in *; [done|].
  destruct (decide (c' = c)); [done|].
  destruct (str_find_range c a) as [E|E].
  - by rewrite (IH E).
  - destruct (str_find c a <? 0)%Z eqn:E'; [apply Z.ltb_lt in E'|]; lia.
Qed.

Lemma str_find_app_present c a b :
  (0 <= str_find c a)%Z -> str_find c (a +:+ b) = str_find c a.
Proof.
  induction a as [|c' a IH]; simpl; [lia|].
  destruct (decide (c' = c)); [done|]. intros H.
  destruct (str_find c a <? 0)%Z eqn:E; [lia|].
  pose proof E as E'. apply Z.ltb_ge in E'. by rewrite (IH E'), E.
Qed.

Lemma substring_app_l n a b :
  n <= String.length a -> substring 0 n (a +:+ b) = substring 0 n a.
Proof.
  revert n. induction a as [|c a IH]; intros [|n] Hn; simpl in *; try lia.
  - by destruct b.
  - done.
  - f_equal. apply IH. lia.
Qed.

Lemma ZipInfo_filename_posix s :
  zipfile.ZipInfo_filename s
  = if (str_find NUL s >=? 0)%Z then substring 0 (Z.to_nat (str_find NUL s)) s else s.
Proof. done. Qed.

(** The name of the entry [write] makes for [key]: [key + '.npy'] when
    [key] has no null character; what comes before the first null character
    of [key] when it has one, the suffix being cut as well. *)
Lemma entry_name_of_key key :
  zipfile.ZipInfo_filename (key +:+ ".npy")
  = if (str_find NUL key >=? 0)%Z
    then substring 0 (Z.to_nat (str_find NUL key)) key
    else key +:+ ".npy".
Proof.
  rewrite ZipInfo_filename_posix.
  destruct (str_find_range NUL key) as [E|E].
  - rewrite E, (str_find_app_absent NUL key ".npy" E) by done. done.
  - rewrite (str_find_app_present NUL key ".npy") by lia.
    assert ((str_find NUL key >=? 0)%Z = true) as -> by (apply Z.geb_le; lia).
    apply substring_app_l. lia.
Qed.

Lemma string_length_app a b : String.length (a +:+ b) = String.length a + String.length b.
Proof. induction a as [|c a IH]; simpl; [done|]. by rewrite IH. Qed.

Lemma length_substring_le n s : String.length (substring 0 n s) <= String.length s.
Proof.
  revert n. induction s as [|c s IH]; intros [|n]; simpl; try lia.
  specialize (IH n). lia.
Qed.

(** A key of at most 65531 bytes gives a name that fits. *)
Lemma short_key_fits key :
  (Z.of_nat (String.length key) <= 65531)%Z -> name_fits key.
Proof.
  intros H. unfold name_fits. rewrite entry_name_of_key.
  destruct (str_find NUL key >=? 0)%Z.
  - pose proof (length_substring_le (Z.to_nat (str_find NUL key)) key). lia.
  - rewrite string_length_app. simpl. lia.
Qed.

(** * Properties of the writer *)

(** Discharging [opened] and [unopened] on a concrete state. *)
Ltac concrete_opened :=
  unfold opened; split; [reflexivity|]; split; [by eexists|];
  eexists; split; [vm_compute; reflexivity|]; repeat split; reflexivity.

Ltac concrete_unopened :=
  unfold unopened; split; [reflexivity|]; split; [by eexists | reflexivity].

(** Discharging [names_fit] on concrete items. *)
Ltac concrete_names_fit :=
  repeat constructor; unfold name_fits; vm_compute; discriminate.

(** ** Construction *)

(** [__init__] accepts exactly the modes that occur in ['xwa'] as a
    substring. *)
Lemma init_ok_iff p m c :
  is_Ok (__init__ p m c) = true <-> m ∈ [""; "x"; "w"; "a"; "xw"; "wa"; "xwa"].
Proof.
  rewrite <- str_in_xwa. unfold __init__. by destruct (str_in m "xwa").
Qed.

(** C2, where the code departs from the specification: construction is
    specified to succeed for the modes ['x'], ['w'] and ['a'] only.
    [__init__] tests [mode in 'xwa'], a substring test, so it also accepts
    ['xw'] and the empty string, and builds a writer with that mode. *)
Theorem init_accepts_xw_and_empty_mode :
  __init__ "test.npz" "xw" false = Ok (sample_writer "xw")
  /\ __init__ "test.npz" "" false = Ok (sample_writer "").
Proof. split; reflexivity. Qed.

(** ** Appending *)

(** C1, where the code departs from the specification: [write] is specified
    to succeed on a writer opened under any of the modes ['x'], ['w'], ['a'].
    [write] passes the writer's own mode to [ZipFile.open], which takes ['r']
    or ['w'] only: on a writer opened with ['x'] or ['a'], [write] raises
    [ValueError] and the archive gets no entry. *)
Theorem write_raises_in_modes_x_and_a :
  (fst (openFile (boot (sample_writer "x") ∅ [])) = Ok tt
   /\ fst (write sample_save "a" (NdArray sample_array) (sample_opened "x" []))
      = Raise (ValueError "open() requires mode 'r' or 'w'")
   /\ entries 0 (snd (write sample_save "a" (NdArray sample_array) (sample_opened "x" [])))
      = [])
  /\ (fst (openFile (boot (sample_writer "a") ∅ [])) = Ok tt
      /\ fst (write sample_save "a" (NdArray sample_array) (sample_opened "a" []))
         = Raise (ValueError "open() requires mode 'r' or 'w'")
      /\ entries 0 (snd (write sample_save "a" (NdArray sample_array) (sample_opened "a" [])))
         = []).
Proof. repeat split; vm_compute; reflexivity. Qed.

(** On every writer opened with a mode other than ['w'], [write] of
    encodable data raises that [ValueError] and adds no entry. *)
Lemma write_refused_unless_mode_w np_save key data buf h st :
  opened h st -> mode (self st) <> "w" -> np_save data = Ok buf ->
  fst (write np_save key data st)
  = Raise (ValueError "open() requires mode 'r' or 'w'")
  /\ entries h (snd (write np_save key data st)) = entries h st.
Proof.
  intros Hop Hm Hs.
  pose proof (write_opened_result np_save key data h st Hop) as H.
  rewrite Hs in H. destruct (write np_save key data st) as [r st'].
  destruct H as (_ & _ & H & _). by apply H.
Qed.

(** On a writer opened with mode ['w'], when the medium does not fail and
    the name of the entry fits, [write] of encodable data returns; the
    archive then has one more entry, under the name [ZipInfo] keeps of
    [key + '.npy'], holding the whole encoded buffer; the entry channel is
    closed and the archive is still open. *)
Lemma write_appends_in_mode_w np_save key data buf h st :
  opened h st -> mode (self st) = "w" -> reliable st -> name_fits key ->
  np_save data = Ok buf ->
  fst (write np_save key data st) = Ok tt
  /\ entries h (snd (write np_save key data st))
     = entries h st
       ++ [mk_ZipInfo (zipfile.ZipInfo_filename (key +:+ ".npy"))
             (compression (self st)) true (length buf) buf]
  /\ opened h (snd (write np_save key data st))
  /\ reliable (snd (write np_save key data st)).
Proof.
  intros Hop Hm Hr Hfit Hs.
  pose proof (write_opened_result np_save key data h st Hop) as H.
  rewrite Hs in H. destruct (write np_save key data st) as [r st'].
  destruct H as (Hop' & _ & _ & H). destruct (H Hm) as (Hok & _ & Hrel & _).
  destruct (Hrel Hfit Hr) as [-> Hr']. simpl. auto.
Qed.

(** The run of the module's [__main__] part: one array appended under ['a']
    through a scoped writer of mode ['w'].  The medium ends up with the
    archive and its entry ['a.npy'], and nothing is left open. *)
Example main_run :
  let st := snd (scoped (write sample_save "a" (NdArray sample_array))
                        (boot (sample_writer "w") ∅ [])) in
  disk st !! "test.npz"
  = Some [mk_ZipInfo "a.npy" ZIP_STORED true 14
            [x93; x4e; x55; x4d; x50; x59; x00; x00; x00; x00; x00; x00; xf0; x3f]%byte]
  /\ open_handles st = []
  /\ tofile (self st) = None.
Proof. repeat split; vm_compute; reflexivity. Qed.

(** ** Closing *)

(** C10: on a writer that has been constructed and never opened, [close]
    raises [AttributeError] (the guard sees a [tofile] that is not [None],
    and [self.file] is [None]); it changes nothing, so it is not a
    no-op that marks the writer closed. *)
Theorem close_before_open_raises p m c w d s :
  __init__ p m c = Ok w ->
  close (boot w d s)
  = (Raise (AttributeError "'NoneType' object has no attribute 'close'"), boot w d s).
Proof.
  intros H. destruct (init_unopened p m c w d s H) as (Hf & Ht & _).
  by apply close_without_file.
Qed.

(** The writer [IncrementalNpzWriter('test.npz', 'w')], closed at once. *)
Lemma close_before_open_raises_witness :
  __init__ "test.npz" "w" false = Ok (sample_writer "w")
  /\ close (boot (sample_writer "w") ∅ [])
     = (Raise (AttributeError "'NoneType' object has no attribute 'close'"),
        boot (sample_writer "w") ∅ []).
Proof.
  split; [reflexivity|].
  apply (close_before_open_raises "test.npz" "w" false). reflexivity.
Defined.

(** C3, counterexample: a writer of the default mode whose medium refuses
    the ending records of the archive.  The first [close] raises and leaves
    [tofile] as it was; the second [close] calls [ZipFile.close] once more
    and changes the writer. *)
Lemma second_close_after_failure_has_effect :
  let st := sample_opened "x" [IoOk; IoFail "EIO"] in
  opened 0 st
  /\ fst (close st) = Raise (OSError "EIO")
  /\ tofile (self (snd (close st))) = Some "test.npz"
  /\ snd (close (snd (close st))) <> snd (close st)
  /\ close_calls 0 (trace (snd (close (snd (close st))))) = 2.
Proof.
  split; [concrete_opened|].
  repeat split; try (vm_compute; reflexivity).
  vm_compute. intros H. discriminate H.
Qed.

(** C3, as the code has it: on an opened writer, when the first [close]
    returns, which it does when the medium does not fail, it has made the
    one call to [ZipFile.close] that closes the archive and has set
    [tofile] to [None]; the second [close] returns and leaves the state as
    it is. *)
Theorem close_twice_finalizes_once h st :
  opened h st ->
  (reliable st -> fst (close st) = Ok tt)
  /\ forall st1,
       close st = (Ok tt, st1) ->
       handle_closed h st1
       /\ tofile (self st1) = None
       /\ trace st1 = trace st ++ [CallClose h]
       /\ close st1 = (Ok tt, st1).
Proof.
  intros Hop.
  destruct (close_opened_result h st Hop) as (z & Hz & H).
  destruct (close st) as [[[]|e] st0]; split.
  - done.
  - intros st1 [= <-]. destruct H as (Hh & Ht & _ & _ & Hto & _).
    split.
    + exists (zipfile.zf_set_fp false z). split; [|done].
      rewrite Hh. apply list_lookup_insert_eq. by eapply lookup_lt_Some.
    + split; [done|]. split; [done|]. by apply close_closed.
  - intros Hr. by destruct H as (_ & _ & _ & _ & _ & _ & Hn & _).
  - intros st1 [=].
Qed.

(** A writer of mode ['w'], opened on an empty medium, closed twice. *)
Lemma close_twice_finalizes_once_witness :
  opened 0 (sample_opened "w" [])
  /\ (reliable (sample_opened "w" []) -> fst (close (sample_opened "w" [])) = Ok tt)
  /\ forall st1,
       close (sample_opened "w" []) = (Ok tt, st1) ->
       handle_closed 0 st1
       /\ tofile (self st1) = None
       /\ trace st1 = trace (sample_opened "w" []) ++ [CallClose 0]
       /\ close st1 = (Ok tt, st1).
Proof.
  assert (H1 : opened 0 (sample_opened "w" [])) by concrete_opened.
  split; [exact H1|].
  exact (close_twice_finalizes_once 0 (sample_opened "w" []) H1).
Defined.

(** C6, counterexample: [ZipFile.close] fails on the second request to the
    medium (the first one opened the file).  [close] raises the [OSError],
    and [tofile] is still ['test.npz']: the writer is not marked closed, and
    a second [close] is not a no-op. *)
Lemma close_failure_leaves_tofile :
  let st := sample_opened "w" [IoOk; IoFail "ENOSPC"] in
  fst (close st) = Raise (OSError "ENOSPC")
  /\ tofile (self (snd (close st))) = Some "test.npz"
  /\ close (snd (close st)) <> (Ok tt, snd (close st)).
Proof.
  repeat split; try (vm_compute; reflexivity).
  vm_compute. intros H. discriminate H.
Qed.

(** C6, as the code has it: when [ZipFile.close] fails during [close], the
    [OSError] reaches the caller and the archive is released, but [tofile]
    keeps its value: the writer is not marked closed.  The next [close]
    calls [ZipFile.close] again, which does nothing on the released archive,
    returns, and only then sets [tofile] to [None]. *)
Theorem close_failure_is_not_marked h st e st' :
  opened h st -> close st = (Raise e, st') ->
  (exists errno, e = OSError errno)
  /\ handle_closed h st'
  /\ tofile (self st') = tofile (self st)
  /\ exists st'',
       close st' = (Ok tt, st'')
       /\ tofile (self st'') = None
       /\ trace st'' = trace st' ++ [CallClose h]
       /\ heap st'' = heap st'.
Proof.
  intros Hop Hc.
  destruct (close_opened_result h st Hop) as (z & Hz & H). rewrite Hc in H.
  destruct H as (Hh & Ht & Hf & Hm & Hto & He & _).
  destruct Hop as (_ & [p Hp] & _).
  assert (Hz' : heap st' !! h = Some (zipfile.zf_set_fp false z)).
  { rewrite Hh. apply list_lookup_insert_eq. by eapply lookup_lt_Some. }
  split; [done|]. split; [by eexists|]. split; [done|].
  unfold close, get, modify, mbind, M_bind, bind; cbn.
  rewrite Hto, Hp, Hf, (ZipFile_close_closed h st' _ Hz' eq_refl). cbn.
  eexists. split; [reflexivity|]. by simpl_state.
Qed.

(** The run of the counterexample: the medium refuses the ending records. *)
Lemma close_failure_is_not_marked_witness :
  opened 0 (sample_opened "w" [IoOk; IoFail "ENOSPC"])
  /\ close (sample_opened "w" [IoOk; IoFail "ENOSPC"])
     = (Raise (OSError "ENOSPC"), snd (close (sample_opened "w" [IoOk; IoFail "ENOSPC"])))
  /\ ((exists errno, OSError "ENOSPC" = OSError errno)
      /\ handle_closed 0 (snd (close (sample_opened "w" [IoOk; IoFail "ENOSPC"])))
      /\ tofile (self (snd (close (sample_opened "w" [IoOk; IoFail "ENOSPC"]))))
         = tofile (self (sample_opened "w" [IoOk; IoFail "ENOSPC"]))
      /\ exists st'',
           close (snd (close (sample_opened "w" [IoOk; IoFail "ENOSPC"]))) = (Ok tt, st'')
           /\ tofile (self st'') = None
           /\ trace st''
              = trace (snd (close (sample_opened "w" [IoOk; IoFail "ENOSPC"]))) ++ [CallClose 0]
           /\ heap st'' = heap (snd (close (sample_opened "w" [IoOk; IoFail "ENOSPC"])))).
Proof.
  assert (H1 : opened 0 (sample_opened "w" [IoOk; IoFail "ENOSPC"])) by concrete_opened.
  assert (H2 : close (sample_opened "w" [IoOk; IoFail "ENOSPC"])
               = (Raise (OSError "ENOSPC"),
                  snd (close (sample_opened "w" [IoOk; IoFail "ENOSPC"]))))
    by (vm_compute; reflexivity).
  split; [exact H1|]. split; [exact H2|].
  exact (close_failure_is_not_marked 0 _ _ _ H1 H2).
Defined.

(** ** What an entry holds and how it is called *)

(** C5: whatever [data] is, an array or a raw byte blob, [write] first runs
    the encoder on it.  When the encoder raises, [write] raises the same and
    nothing is written.  Otherwise what the archive receives is what the
    encoder produced: an entry added by the call holds a prefix of the
    encoded buffer, and the whole of it, with its size, when [write]
    returns, as it does under mode ['w'] when the name of the entry fits and
    the medium does not fail.  The raw bytes of a blob are never what is
    stored, unless the encoder returns them. *)
Theorem write_stores_encoder_output np_save key data h st :
  opened h st ->
  match np_save data, write np_save key data st with
  | Raise e, (r, st') => r = Raise e /\ st' = st
  | Ok buf, (r, st') =>
      (r = Ok tt ->
       exists zinfo, entries h st' = entries h st ++ [zinfo]
                     /\ zi_data zinfo = buf /\ zi_file_size zinfo = length buf)
      /\ (entries h st' = entries h st
          \/ exists zinfo, entries h st' = entries h st ++ [zinfo]
                           /\ zi_data zinfo `prefix_of` buf
                           /\ zi_file_size zinfo <= length buf)
      /\ (mode (self st) = "w" -> name_fits key -> reliable st -> r = Ok tt)
  end.
Proof.
  intros Hop.
  pose proof (write_opened_result np_save key data h st Hop) as H.
  destruct (np_save data) as [buf|e]; destruct (write np_save key data st) as [r st'];
    destruct H as (_ & _ & H); [|done].
  destruct H as [Hx Hw].
  destruct (decide (mode (self st) = "w")) as [Hm|Hm].
  - destruct (Hw Hm) as (Hok & Hany & Hrel & _). split; [|split].
    + intros Hr. rewrite (Hok Hr). by eexists.
    + destruct Hany as [He|(n & d & Hpre & Hlen & He)]; [by left|].
      right. rewrite He. eexists. split; [done|]. simpl. split; [done|lia].
    + intros _ Hfit Hr. by destruct (Hrel Hfit Hr).
  - destruct (Hx Hm) as [-> He]. split; [done|]. split; [by left|done].
Qed.

(** A raw blob appended under ['k'] by a writer of mode ['w']. *)
Lemma write_stores_encoder_output_witness :
  opened 0 (sample_opened "w" [])
  /\ match sample_save (Bytes sample_blob),
           write sample_save "k" (Bytes sample_blob) (sample_opened "w" []) with
     | Raise e, (r, st') => r = Raise e /\ st' = sample_opened "w" []
     | Ok buf, (r, st') =>
         (r = Ok tt ->
          exists zinfo, entries 0 st' = entries 0 (sample_opened "w" []) ++ [zinfo]
                        /\ zi_data zinfo = buf /\ zi_file_size zinfo = length buf)
         /\ (entries 0 st' = entries 0 (sample_opened "w" [])
             \/ exists zinfo, entries 0 st' = entries 0 (sample_opened "w" []) ++ [zinfo]
                              /\ zi_data zinfo `prefix_of` buf
                              /\ zi_file_size zinfo <= length buf)
         /\ (mode (self (sample_opened "w" [])) = "w" -> name_fits "k" ->
             reliable (sample_opened "w" []) -> r = Ok tt)
     end.
Proof.
  assert (H1 : opened 0 (sample_opened "w" [])) by concrete_opened.
  split; [exact H1|].
  exact (write_stores_encoder_output sample_save "k" (Bytes sample_blob) 0 _ H1).
Defined.

(** When the encoder never gives a blob back as it is (the [.npy] format
    puts a header in front), no [write] that returns has stored the blob
    verbatim. *)
Lemma blob_never_stored_verbatim np_save key b h st st' :
  (forall buf, np_save (Bytes b) = Ok buf -> buf <> b) ->
  opened h st -> write np_save key (Bytes b) st = (Ok tt, st') ->
  exists zinfo, entries h st' = entries h st ++ [zinfo] /\ zi_data zinfo <> b.
Proof.
  intros Henc Hop Hw.
  pose proof (write_opened_result np_save key (Bytes b) h st Hop) as H.
  rewrite Hw in H. destruct H as (_ & _ & H).
  destruct (np_save (Bytes b)) as [buf|e] eqn:Hs; [|by destruct H].
  destruct H as [Hx Hm].
  destruct (decide (mode (self st) = "w")) as [Hmw|Hmw]; [|by destruct (Hx Hmw)].
  destruct (Hm Hmw) as (Hok & _). rewrite (Hok eq_refl).
  eexists. split; [done|]. simpl. by apply Henc.
Qed.

(** With the sample encoder, the entry of that blob holds the encoded bytes,
    which are not the blob. *)
Example blob_is_stored_encoded :
  entries 0 (snd (write sample_save "k" (Bytes sample_blob) (sample_opened "w" [])))
  = [mk_ZipInfo "k.npy" ZIP_STORED true 9
       [x93; x4e; x55; x4d; x50; x59; x01; x02; x03]%byte].
Proof. vm_compute. reflexivity. Qed.

(** C7, counterexample: a key with a null character, ['a' + chr(0) + 'b'].
    [write] returns, and the entry it has added is called ['a']: [ZipInfo]
    cuts the name it is given at the first null character, so that neither
    the rest of the key nor the suffix ['.npy'] is in the name. *)
Lemma nul_key_entry_is_not_key_npy :
  let st := sample_opened "w" [] in
  opened 0 st
  /\ fst (write sample_save sample_nul_key (Bytes sample_blob) st) = Ok tt
  /\ map zi_filename
       (entries 0 (snd (write sample_save sample_nul_key (Bytes sample_blob) st)))
     = ["a"]
  /\ "a" <> sample_nul_key +:+ ".npy".
Proof.
  split; [concrete_opened|].
  repeat split; try (vm_compute; reflexivity).
  vm_compute. intros H. discriminate H.
Qed.

(** C7, as the code has it: the entry [write] makes for [key] has the name
    [ZipInfo] keeps of [key + '.npy'], which is [key + '.npy'] when [key]
    has no null character and the part of [key] before the first one
    otherwise.  A [write] that returns has added exactly one entry, of that
    name, to the archive of the writer; a [write] that raises has added that
    one entry or none; no other archive object is touched.  Under mode
    ['w'], with data the encoder accepts, a name that fits and a medium
    that does not fail, [write] returns. *)
Theorem write_adds_one_entry_named_key_npy np_save key data h st :
  opened h st ->
  let name := zipfile.ZipInfo_filename (key +:+ ".npy") in
  match write np_save key data st with
  | (r, st') =>
      (r = Ok tt ->
       exists zinfo, entries h st' = entries h st ++ [zinfo]
                     /\ zi_filename zinfo = name)
      /\ (entries h st' = entries h st
          \/ exists zinfo, entries h st' = entries h st ++ [zinfo]
                           /\ zi_filename zinfo = name)
      /\ (forall i, i <> h -> heap st' !! i = heap st !! i)
      /\ (mode (self st) = "w" -> is_Ok (np_save data) = true -> name_fits key ->
          reliable st -> r = Ok tt)
  end
  /\ (str_find NUL key = (-1)%Z -> name = key +:+ ".npy")
  /\ ((0 <= str_find NUL key)%Z ->
      name = substring 0 (Z.to_nat (str_find NUL key)) key).
Proof.
  intros Hop name. split.
  2: { subst name. rewrite entry_name_of_key. split; intros Hk.
       - by rewrite Hk.
       - assert ((str_find NUL key >=? 0)%Z = true) as -> by (apply Z.geb_le; lia).
         done. }
  pose proof (write_opened_result np_save key data h st Hop) as H.
  cbv zeta in H. fold name in H.
  destruct (write np_save key data st) as [r st'].
  destruct H as (_ & Ht & H).
  split; [|split; [|split; [by apply (to_others _ _ _ _ Ht)|]]];
    destruct (np_save data) as [buf|e].
  - destruct H as [Hx Hw]. intros ->.
    destruct (decide (mode (self st) = "w")) as [Hm|Hm].
    + destruct (Hw Hm) as (Hok & _). rewrite (Hok eq_refl). by eexists.
    + by destruct (Hx Hm).
  - by destruct H as [-> _].
  - destruct H as [Hx Hw].
    destruct (decide (mode (self st) = "w")) as [Hm|Hm].
    + destruct (Hw Hm) as (_ & [He|(n & d & _ & _ & He)] & _); [by left|].
      right. rewrite He. by eexists.
    + left. by destruct (Hx Hm).
  - destruct H as [_ ->]. by left.
  - destruct H as [_ Hw]. intros Hm _ Hfit Hr.
    destruct (Hw Hm) as (_ & _ & Hrel & _). by destruct (Hrel Hfit Hr).
  - intros _ Henc. discriminate Henc.
Qed.

(** An array appended under ['a'] by a writer of mode ['w']. *)
Lemma write_adds_one_entry_named_key_npy_witness :
  opened 0 (sample_opened "w" [])
  /\ (match write sample_save "a" (NdArray sample_array) (sample_opened "w" []) with
      | (r, st') =>
          (r = Ok tt ->
           exists zinfo, entries 0 st' = entries 0 (sample_opened "w" []) ++ [zinfo]
                         /\ zi_filename zinfo = zipfile.ZipInfo_filename ("a" +:+ ".npy"))
          /\ (entries 0 st' = entries 0 (sample_opened "w" [])
              \/ exists zinfo, entries 0 st' = entries 0 (sample_opened "w" []) ++ [zinfo]
                               /\ zi_filename zinfo
                                  = zipfile.ZipInfo_filename ("a" +:+ ".npy"))
          /\ (forall i, i <> 0 -> heap st' !! i = heap (sample_opened "w" []) !! i)
          /\ (mode (self (sample_opened "w" [])) = "w" ->
              is_Ok (sample_save (NdArray sample_array)) = true -> name_fits "a" ->
              reliable (sample_opened "w" []) -> r = Ok tt)
      end
      /\ (str_find NUL "a" = (-1)%Z
          -> zipfile.ZipInfo_filename ("a" +:+ ".npy") = "a" +:+ ".npy")
      /\ ((0 <= str_find NUL "a")%Z ->
          zipfile.ZipInfo_filename ("a" +:+ ".npy")
          = substring 0 (Z.to_nat (str_find NUL "a")) "a")).
Proof.
  assert (H1 : opened 0 (sample_opened "w" [])) by concrete_opened.
  split; [exact H1|].
  exact (write_adds_one_entry_named_key_npy sample_save "a" (NdArray sample_array) 0 _ H1).
Defined.

(** The run of that append: it returns, and the entry is called ['a.npy']. *)
Example write_a_gives_a_npy :
  fst (write sample_save "a" (NdArray sample_array) (sample_opened "w" [])) = Ok tt
  /\ map zi_filename
       (entries 0 (snd (write sample_save "a" (NdArray sample_array) (sample_opened "w" []))))
     = ["a.npy"].
Proof. split; vm_compute; reflexivity. Qed.

(** C9: a [write] of encodable data on an opened writer calls [ZipFile.open]
    with [force_zip64=True] before anything else, and makes no call to it
    without; an entry it adds is a ZIP64 entry; and with mode ['w'], a name
    that fits and a medium that does not fail it returns whatever the size
    of the encoded buffer, [ZIP64_LIMIT] playing no role, and the entry holds
    the whole buffer. *)
Theorem write_requests_zip64 np_save key data buf h st :
  opened h st -> np_save data = Ok buf ->
  match write np_save key data st with
  | (r, st') =>
      (exists evs,
         trace st' = trace st ++ CallOpen h (key +:+ ".npy") (mode (self st)) true :: evs
         /\ Forall (entry_event h (key +:+ ".npy")) evs)
      /\ (forall zinfo, entries h st' = entries h st ++ [zinfo] -> zi_zip64 zinfo = true)
      /\ (mode (self st) = "w" -> reliable st -> name_fits key ->
          r = Ok tt
          /\ exists zinfo, entries h st' = entries h st ++ [zinfo]
                           /\ zi_zip64 zinfo = true
                           /\ zi_file_size zinfo = length buf
                           /\ zi_data zinfo = buf)
  end.
Proof.
  intros Hop Hs.
  pose proof (write_opened_result np_save key data h st Hop) as H. rewrite Hs in H.
  assert (Htr : exists evs,
    trace (snd (write np_save key data st))
    = trace st ++ CallOpen h (key +:+ ".npy") (mode (self st)) true :: evs
    /\ Forall (entry_event h (key +:+ ".npy")) evs).
  { destruct Hop as (Hf & _).
    unfold write, timing, with_, lift. unfold mbind at 1 2, M_bind, bind, get.
    rewrite Hs, Hf.
    destruct (ZipFile_open_trace h (key +:+ ".npy") (mode (self st)) st)
      as (evs1 & Ht1 & Hevs1).
    pose proof (ZipFile_open_channel h (key +:+ ".npy") (mode (self st)) true st) as Hch.
    unfold mbind, M_bind, bind.
    destruct (zipfile.ZipFile_open h (key +:+ ".npy") (mode (self st)) true st)
      as [[c|e] st1]; simpl in *.
    - assert (Hrest : touches_only h (key +:+ ".npy") st1
                (snd (try_finally (shutil.copyfileobj buf c 0) (zipfile.close c) st1))).
      { apply (preserves_try_finally (touches_only h (key +:+ ".npy"))).
        - apply touches_copyfileobj. by apply Hch.
        - apply touches_close. by apply Hch. }
      destruct Hrest as [_ _ _ _ _ _ (evs2 & Ht2 & Hevs2)].
      exists (evs1 ++ evs2). split.
      + rewrite Ht2, Ht1. by rewrite <- app_assoc.
      + by apply Forall_app.
    - by exists evs1. }
  destruct (write np_save key data st) as [r st']. simpl in Htr.
  destruct H as (_ & _ & Hx & Hw).
  split; [done|]. split.
  - intros zinfo Hz.
    destruct (decide (mode (self st) = "w")) as [Hm|Hm].
    + destruct (Hw Hm) as (_ & [He|(n & d & _ & _ & He)] & _); rewrite He in Hz.
      * apply (f_equal length) in Hz. rewrite length_app in Hz. simpl in Hz. lia.
      * apply app_inj_tail in Hz as [_ <-]. done.
    + destruct (Hx Hm) as [_ He]. rewrite He in Hz.
      apply (f_equal length) in Hz. rewrite length_app in Hz. simpl in Hz. lia.
  - intros Hm Hr Hfit. destruct (Hw Hm) as (Hok & _ & Hrel & _).
    destruct (Hrel Hfit Hr) as [-> _]. split; [done|].
    rewrite (Hok eq_refl). by eexists.
Qed.

(** The same append, with what the encoder produced. *)
Lemma write_requests_zip64_witness :
  opened 0 (sample_opened "w" [])
  /\ sample_save (NdArray sample_array)
     = Ok ([x93; x4e; x55; x4d; x50; x59; x00; x00; x00; x00; x00; x00; xf0; x3f]%byte)
  /\ match write sample_save "a" (NdArray sample_array) (sample_opened "w" []) with
     | (r, st') =>
         (exists evs,
            trace st'
            = trace (sample_opened "w" [])
              ++ CallOpen 0 ("a" +:+ ".npy") (mode (self (sample_opened "w" []))) true :: evs
            /\ Forall (entry_event 0 ("a" +:+ ".npy")) evs)
         /\ (forall zinfo,
               entries 0 st' = entries 0 (sample_opened "w" []) ++ [zinfo] ->
               zi_zip64 zinfo = true)
         /\ (mode (self (sample_opened "w" [])) = "w" -> reliable (sample_opened "w" []) ->
             name_fits "a" ->
             r = Ok tt
             /\ exists zinfo,
                  entries 0 st' = entries 0 (sample_opened "w" []) ++ [zinfo]
                  /\ zi_zip64 zinfo = true
                  /\ zi_file_size zinfo
                     = length [x93; x4e; x55; x4d; x50; x59; x00; x00; x00; x00; x00; x00;
                               xf0; x3f]%byte
                  /\ zi_data zinfo
                     = [x93; x4e; x55; x4d; x50; x59; x00; x00; x00; x00; x00; x00;
                        xf0; x3f]%byte)
     end.
Proof.
  assert (H1 : opened 0 (sample_opened "w" [])) by concrete_opened.
  assert (H2 : sample_save (NdArray sample_array)
     = Ok ([x93; x4e; x55; x4d; x50; x59; x00; x00; x00; x00; x00; x00; xf0; x3f]%byte))
    by reflexivity.
  split; [exact H1|]. split; [exact H2|].
  exact (write_requests_zip64 sample_save "a" (NdArray sample_array) _ 0 _ H1 H2).
Defined.

(** ** Scoped use *)

(** C4: entering the scope is [openFile].  When it raises, the scope raises
    the same, no archive object has been made and [ZipFile.close] is not
    called.  When it returns, the writer is opened on a new archive object;
    on leaving the scope, whether the appends of the body returned or one of
    them raised, that archive is closed, [ZipFile.close] has been called on
    it exactly once, every other object is as it was, and a failure of the
    body is not turned into a return. *)
Theorem scoped_closes_exactly_once np_save items st :
  unopened st ->
  match openFile st with
  | (Raise e, st1) =>
      scoped (write_items np_save items) st = (Raise e, st1)
      /\ heap st1 = heap st
      /\ close_calls (length (heap st)) (trace st1)
         = close_calls (length (heap st)) (trace st)
  | (Ok _, st1) =>
      opened (length (heap st)) st1
      /\ match scoped (write_items np_save items) st with
         | (r, st') =>
             (exists z, heap st' = heap st ++ [z] /\ zf_fp z = false)
             /\ close_calls (length (heap st)) (trace st')
                = S (close_calls (length (heap st)) (trace st))
             /\ (r = Ok tt -> fst (write_items np_save items st1) = Ok tt)
         end
  end.
Proof.
  intros Hun. set (h := length (heap st)).
  destruct (openFile_result st Hun) as [Hres Htr]. fold h in Hres.
  unfold scoped, with_, __enter__, __exit__, mbind, M_bind, bind.
  destruct (openFile st) as [[[]|e] st1]; simpl in Htr.
  - destruct Hres as [Hop [z1 Hh1]]. split; [done|].
    destruct (write_items_opened np_save items h st1 Hop) as (Hop2 & Hl2 & Ho2 & Hc2).
    unfold try_finally.
    destruct (write_items np_save items st1) as [rb st2]. simpl in *.
    destruct (close_opened_result h st2 Hop2) as (z2 & Hz2 & Hcl).
    assert (Hsnoc : exists y, heap st2 = heap st ++ [y] /\ heap st2 !! h = Some y).
    { apply (snoc_replaced (heap st) (heap st2) z1); rewrite <- Hh1; [done|].
      intros i Hi. by apply Ho2. }
    destruct Hsnoc as (y & Hy & Hy'). rewrite Hz2 in Hy'. injection Hy' as <-.
    assert (Hcount : close_calls h (trace st2) = close_calls h (trace st)).
    { by rewrite Hc2, Htr, close_calls_snoc_other. }
    assert (Hins : <[h := zipfile.zf_set_fp false z2]> (heap st2)
                   = heap st ++ [zipfile.zf_set_fp false z2]).
    { rewrite Hy. unfold h. rewrite insert_app_r_alt by done.
      by rewrite Nat.sub_diag. }
    destruct (close st2) as [[[]|e] st3];
      destruct Hcl as (Hh3 & Ht3 & _);
      rewrite Hh3, Ht3, Hins, close_calls_snoc_close, Hcount.
    + split; [by eexists|]. by split.
    + split; [by eexists|]. by split.
  - destruct Hres as [Hh1 _]. split; [done|]. split; [done|].
    by rewrite Htr, close_calls_snoc_other.
Qed.

(** A scope of mode ['w'] whose first append has data the encoder refuses. *)
Lemma scoped_closes_exactly_once_witness :
  unopened (boot (sample_writer "w") ∅ [])
  /\ match openFile (boot (sample_writer "w") ∅ []) with
     | (Raise e, st1) =>
         scoped (write_items sample_save
                   [("a", NdArray (mk_ndarray "object" [] [])); ("b", Bytes sample_blob)])
                (boot (sample_writer "w") ∅ [])
         = (Raise e, st1)
         /\ heap st1 = heap (boot (sample_writer "w") ∅ [])
         /\ close_calls (length (heap (boot (sample_writer "w") ∅ []))) (trace st1)
            = close_calls (length (heap (boot (sample_writer "w") ∅ [])))
                (trace (boot (sample_writer "w") ∅ []))
     | (Ok _, st1) =>
         opened (length (heap (boot (sample_writer "w") ∅ []))) st1
         /\ match scoped (write_items sample_save
                            [("a", NdArray (mk_ndarray "object" [] []));
                             ("b", Bytes sample_blob)])
                         (boot (sample_writer "w") ∅ []) with
            | (r, st') =>
                (exists z, heap st' = heap (boot (sample_writer "w") ∅ []) ++ [z]
                           /\ zf_fp z = false)
                /\ close_calls (length (heap (boot (sample_writer "w") ∅ []))) (trace st')
                   = S (close_calls (length (heap (boot (sample_writer "w") ∅ [])))
                          (trace (boot (sample_writer "w") ∅ [])))
                /\ (r = Ok tt ->
                    fst (write_items sample_save
                           [("a", NdArray (mk_ndarray "object" [] []));
                            ("b", Bytes sample_blob)] st1) = Ok tt)
            end
     end.
Proof.
  assert (H1 : unopened (boot (sample_writer "w") ∅ [])) by concrete_unopened.
  split; [exact H1|].
  exact (scoped_closes_exactly_once sample_save
           [("a", NdArray (mk_ndarray "object" [] [])); ("b", Bytes sample_blob)] _ H1).
Defined.

(** In that run the first append raises the encoder's error; the scope
    raises it after closing the archive. *)
Example scoped_run_with_failing_append :
  let st := boot (sample_writer "w") ∅ [] in
  let body := write_items sample_save
                [("a", NdArray (mk_ndarray "object" [] [])); ("b", Bytes sample_blob)] in
  fst (scoped body st) = Raise (TypeError "cannot encode object array")
  /\ open_handles (snd (scoped body st)) = []
  /\ close_calls 0 (trace (snd (scoped body st))) = 1
  /\ tofile (self (snd (scoped body st))) = None.
Proof. repeat split; vm_compute; reflexivity. Qed.

(** ** Archive objects of one writer *)



(** A second [openFile] on an opened writer: when the call is over, the
    first archive object has been closed by its finaliser, with one call to
    [ZipFile.close], and the writer refers to the second.  Inside the call,
    the second object exists before the first is finalised. *)
Example reopen_finalizes_replaced_archive :
  let st := run_rc sample_save [OpOpenFile; OpOpenFile] (boot (sample_writer "w") ∅ []) in
  map zf_fp (heap st) = [false; true]
  /\ file (self st) = Some 1
  /\ close_calls 0 (trace st) = 1
  /\ map zf_fp (heap (snd (openFile (sample_opened "w" [])))) = [true; true].
Proof. repeat split; vm_compute; reflexivity. Qed.

(** * Further properties of the writer *)

(** ** Construction and opening *)

(** X1: [__init__] returns a writer exactly for the seven strings that occur
    in ['xwa'], with the configuration as given and no archive object; for
    every other mode it raises [AssertionError] carrying the mode. *)
Theorem init_outcome p m c :
  __init__ p m c
  = if bool_decide (m ∈ [""; "x"; "w"; "a"; "xw"; "wa"; "xwa"])
    then Ok (mk_IncrementalNpzWriter (if c then ZIP_DEFLATED else ZIP_STORED)
               (Some p) m None)
    else Raise (AssertionError m).
Proof.
  unfold __init__. case_bool_decide as H.
  - apply str_in_xwa in H. by rewrite H.
  - destruct (str_in m "xwa") eqn:E; [|done].
    exfalso. apply H. by apply str_in_xwa.
Qed.

(** X2: the modes [__init__] lets through besides ['x'], ['w'], ['a'] give
    writers that cannot be opened: [openFile] raises the [ValueError] of
    [ZipFile], makes no archive object, and leaves the writer and the medium
    as they were. *)
Theorem openFile_refuses_other_modes st :
  unopened st -> mode (self st) ∉ ["x"; "w"; "a"] ->
  exists st',
    openFile st = (Raise (ValueError "ZipFile requires mode 'r', 'w', 'x', or 'a'"), st')
    /\ self st' = self st /\ heap st' = heap st /\ disk st' = disk st
    /\ script st' = script st.
Proof.
  intros (Hf & [p Hp] & Hxwa) Hm.
  assert (Hno : tuple_in (mode (self st)) ["r"; "w"; "x"; "a"] = false).
  { apply str_in_xwa in Hxwa. rewrite !elem_of_cons, elem_of_nil in Hxwa.
    rewrite !elem_of_cons, elem_of_nil in Hm.
    destruct Hxwa as [H|[H|[H|[H|[H|[H|[H|[]]]]]]]]; rewrite H in Hm |- *;
      try (vm_compute; reflexivity); exfalso; apply Hm; auto. }
  unfold openFile, zipfile.ZipFile_init.
  unfold get, emit, modify, raise, mbind, M_bind, bind; cbn.
  rewrite Hno; cbn. eexists. split; [reflexivity|]. by simpl_state.
Qed.

Lemma openFile_refuses_other_modes_witness :
  unopened (boot (sample_writer "xw") ∅ [])
  /\ ("xw" ∉ ["x"; "w"; "a"])
  /\ exists st',
       openFile (boot (sample_writer "xw") ∅ [])
       = (Raise (ValueError "ZipFile requires mode 'r', 'w', 'x', or 'a'"), st')
       /\ self st' = self (boot (sample_writer "xw") ∅ [])
       /\ heap st' = heap (boot (sample_writer "xw") ∅ [])
       /\ disk st' = disk (boot (sample_writer "xw") ∅ [])
       /\ script st' = script (boot (sample_writer "xw") ∅ []).
Proof.
  assert (H1 : unopened (boot (sample_writer "xw") ∅ [])) by concrete_unopened.
  assert (H2 : "xw" ∉ ["x"; "w"; "a"]).
  { rewrite !elem_of_cons, elem_of_nil. intros [H|[H|[H|[]]]]; discriminate H. }
  split; [exact H1|]. split; [exact H2|].
  exact (openFile_refuses_other_modes _ H1 H2).
Defined.

(** X3: with mode ['x'], the default, [openFile] on a target that exists
    raises an [OSError], whatever the medium answers; no archive object is
    made, the writer stays unopened and the target keeps its content. *)
Theorem openFile_exclusive_refuses_existing st p old :
  unopened st -> mode (self st) = "x" -> tofile (self st) = Some p ->
  disk st !! p = Some old ->
  exists errno st',
    openFile st = (Raise (OSError errno), st')
    /\ unopened st' /\ heap st' = heap st /\ disk st' = disk st.
Proof.
  intros Hun Hm Hp Hd. pose proof Hun as (Hf & _ & Hxwa).
  unfold openFile, zipfile.ZipFile_init, zipfile.io_open.
  unfold get, emit, modify, raise, mbind, M_bind, bind; cbn.
  rewrite Hm, Hp; simpl.
  next_request (set_trace (trace st ++ [CallZipFile (Some p) "x" (compression (self st))]) st).
  assert (Hx : str_in "x" "xwa" = true) by reflexivity.
  destruct r as [[]|e]; cbn.
  - rewrite Hdisk. cbn. rewrite Hd. eexists _, _. split; [reflexivity|].
    unfold unopened. rewrite Hself, Hheap, Hdisk. simpl_state.
    rewrite Hf, Hp, Hm. repeat split; try done; by eexists.
  - unfold zipfile.request in E. simpl_state.
    destruct (script st) as [|[|e'] s]; try discriminate E.
    injection E as <- <-. simpl_state. eexists _, _. split; [reflexivity|].
    unfold unopened; simpl. rewrite Hf, Hp, Hm. repeat split; try done; by eexists.
Qed.

Lemma openFile_exclusive_refuses_existing_witness :
  unopened (boot (sample_writer "x") {["test.npz" := []]} [])
  /\ mode (self (boot (sample_writer "x") {["test.npz" := []]} [])) = "x"
  /\ tofile (self (boot (sample_writer "x") {["test.npz" := []]} [])) = Some "test.npz"
  /\ disk (boot (sample_writer "x") {["test.npz" := []]} []) !! "test.npz" = Some []
  /\ exists errno st',
       openFile (boot (sample_writer "x") {["test.npz" := []]} [])
       = (Raise (OSError errno), st')
       /\ unopened st'
       /\ heap st' = heap (boot (sample_writer "x") {["test.npz" := []]} [])
       /\ disk st' = disk (boot (sample_writer "x") {["test.npz" := []]} []).
Proof.
  assert (H1 : unopened (boot (sample_writer "x") {["test.npz" := []]} []))
    by concrete_unopened.
  assert (H2 : disk (boot (sample_writer "x") {["test.npz" := []]} []) !! "test.npz"
               = Some []) by (vm_compute; reflexivity).
  split; [exact H1|]. split; [reflexivity|]. split; [reflexivity|].
  split; [exact H2|].
  exact (openFile_exclusive_refuses_existing _ "test.npz" [] H1 eq_refl eq_refl H2).
Defined.

(** ** Appending outside the opened state *)

(** X4: [write] on a writer that was never opened raises, and changes
    nothing: the encoder's error when the encoder refuses the data,
    [AttributeError] on [self.file.open] otherwise. *)
Theorem write_before_open_raises np_save key data st :
  file (self st) = None ->
  write np_save key data st
  = (match np_save data with
     | Raise e => Raise e
     | Ok _ => Raise (AttributeError "'NoneType' object has no attribute 'open'")
     end, st).
Proof.
  intros Hf. unfold write, timing, lift, get, raise, mbind, M_bind, bind.
  destruct (np_save data); [by rewrite Hf | done].
Qed.

Lemma write_before_open_raises_witness :
  file (self (boot (sample_writer "w") ∅ [])) = None
  /\ write sample_save "a" (NdArray sample_array) (boot (sample_writer "w") ∅ [])
     = (match sample_save (NdArray sample_array) with
        | Raise e => Raise e
        | Ok _ => Raise (AttributeError "'NoneType' object has no attribute 'open'")
        end, boot (sample_writer "w") ∅ []).
Proof.
  split; [reflexivity|].
  exact (write_before_open_raises sample_save "a" (NdArray sample_array)
           (boot (sample_writer "w") ∅ []) eq_refl).
Defined.

(** X5: once [close] has returned on an opened writer, a [write] of
    encodable data raises [ValueError]: the closed archive gets no entry,
    and the writer, the heap and the medium stay as [close] left them. *)
Theorem write_after_close_raises np_save key data buf h st st1 :
  opened h st -> close st = (Ok tt, st1) -> np_save data = Ok buf ->
  exists msg st2,
    write np_save key data st1 = (Raise (ValueError msg), st2)
    /\ self st2 = self st1 /\ heap st2 = heap st1 /\ disk st2 = disk st1.
Proof.
  intros Hop Hc Hs.
  destruct (close_opened_result h st Hop) as (z & Hz & H). rewrite Hc in H.
  destruct H as (Hh & _ & Hf & Hm & _).
  destruct (opened_mode h st Hop) as [Hmw|Hmx].
  - assert (Hz1 : heap st1 !! h = Some (zipfile.zf_set_fp false z)).
    { rewrite Hh. apply list_lookup_insert_eq. by eapply lookup_lt_Some. }
    unfold write, timing, with_, lift, zipfile.ZipFile_open, zipfile.deref.
    unfold emit, modify, get, raise, mbind, M_bind, bind.
    rewrite Hs, Hf, Hm, Hmw. simpl. rewrite Hz1. simpl.
    eexists _, _. split; [reflexivity|]. by simpl_state.
  - rewrite <- Hm in Hmx.
    rewrite (write_mode_refused np_save key data buf h st1 Hs Hf Hmx).
    eexists _, _. split; [reflexivity|]. by simpl_state.
Qed.

Lemma write_after_close_raises_witness :
  opened 0 (sample_opened "w" [])
  /\ close (sample_opened "w" []) = (Ok tt, snd (close (sample_opened "w" [])))
  /\ sample_save (Bytes sample_blob)
     = Ok [x93; x4e; x55; x4d; x50; x59; x01; x02; x03]%byte
  /\ exists msg st2,
       write sample_save "k" (Bytes sample_blob) (snd (close (sample_opened "w" [])))
       = (Raise (ValueError msg), st2)
       /\ self st2 = self (snd (close (sample_opened "w" [])))
       /\ heap st2 = heap (snd (close (sample_opened "w" [])))
       /\ disk st2 = disk (snd (close (sample_opened "w" []))).
Proof.
  assert (H1 : opened 0 (sample_opened "w" [])) by concrete_opened.
  assert (H2 : close (sample_opened "w" []) = (Ok tt, snd (close (sample_opened "w" []))))
    by (vm_compute; reflexivity).
  assert (H3 : sample_save (Bytes sample_blob)
               = Ok [x93; x4e; x55; x4d; x50; x59; x01; x02; x03]%byte) by reflexivity.
  split; [exact H1|]. split; [exact H2|]. split; [exact H3|].
  exact (write_after_close_raises sample_save "k" (Bytes sample_blob) _ 0 _ _ H1 H2 H3).
Defined.

(** X6: whatever a [write] on an opened writer comes to (it returns, the
    encoder refuses the data, [ZipFile.open] refuses the mode, the medium
    fails in the middle of the entry), the writer is opened afterwards: the
    entry channel is closed and the archive is open. *)
Theorem write_keeps_opened np_save key data h st :
  opened h st -> opened h (snd (write np_save key data st)).
Proof.
  intros Hop.
  pose proof (write_opened_result np_save key data h st Hop) as H.
  destruct (write np_save key data st) as [r st']. by destruct H as [H _].
Qed.

(** The medium fails while the bytes of the entry are copied. *)
Lemma write_keeps_opened_witness :
  opened 0 (sample_opened "w" [IoOk; IoOk; IoFail "ENOSPC"])
  /\ opened 0 (snd (write sample_save "a" (NdArray sample_array)
                      (sample_opened "w" [IoOk; IoOk; IoFail "ENOSPC"]))).
Proof.
  assert (H1 : opened 0 (sample_opened "w" [IoOk; IoOk; IoFail "ENOSPC"]))
    by concrete_opened.
  split; [exact H1|].
  exact (write_keeps_opened sample_save "a" (NdArray sample_array) 0 _ H1).
Defined.

Example write_fails_in_the_middle :
  fst (write sample_save "a" (NdArray sample_array)
         (sample_opened "w" [IoOk; IoOk; IoFail "ENOSPC"]))
  = Raise (OSError "ENOSPC").
Proof. vm_compute. reflexivity. Qed.

(** ** After closing *)

(** Only [close] writes [tofile], and it writes [None]. *)
Lemma perform_keeps_closed np_save o st :
  tofile (self st) = None ->
  tofile (self (snd (perform np_save o st))) = None
  /\ disk (snd (perform np_save o st)) = disk st.
Proof.
  intros Hto. destruct o as [|key data|]; simpl.
  - unfold openFile, zipfile.ZipFile_init, zipfile.alloc.
    unfold get, emit, modify, raise, mbind, M_bind, bind; cbn. rewrite Hto.
    destruct (tuple_in (mode (self st)) ["r"; "w"; "x"; "a"]); cbn; [|done].
    by destruct (tuple_in (mode (self st)) ["w"; "x"]).
  - pose proof (write_touches np_save key data st) as H.
    destruct (file (self st)).
    + by rewrite (to_self _ _ _ _ H), (to_disk _ _ _ _ H).
    + by rewrite H.
  - by rewrite close_closed.
Qed.

(** X7: a writer whose [tofile] is [None], as [close] leaves it, never
    changes the medium again and never gets its [tofile] back, whatever the
    caller does with it afterwards, [openFile] included. *)
Theorem closed_writer_leaves_medium_alone np_save ops : forall st,
  tofile (self st) = None ->
  disk (run np_save ops st) = disk st
  /\ tofile (self (run np_save ops st)) = None.
Proof.
  induction ops as [|o ops IH]; intros st Hto; [done|].
  destruct (perform_keeps_closed np_save o st Hto) as [Hto' Hd].
  unfold run in *. simpl. destruct (IH _ Hto') as [IH1 IH2].
  by rewrite IH1, IH2, Hd.
Qed.

(** A writer that was closed, then opened again and written to. *)
Lemma closed_writer_leaves_medium_alone_witness :
  tofile (self (snd (close (sample_opened "w" [])))) = None
  /\ disk (run sample_save [OpOpenFile; OpWrite "a" (NdArray sample_array); OpClose]
             (snd (close (sample_opened "w" []))))
     = disk (snd (close (sample_opened "w" [])))
  /\ tofile (self (run sample_save
                     [OpOpenFile; OpWrite "a" (NdArray sample_array); OpClose]
                     (snd (close (sample_opened "w" []))))) = None.
Proof.
  assert (H1 : tofile (self (snd (close (sample_opened "w" [])))) = None)
    by (vm_compute; reflexivity).
  split; [exact H1|].
  exact (closed_writer_leaves_medium_alone sample_save
           [OpOpenFile; OpWrite "a" (NdArray sample_array); OpClose] _ H1).
Defined.

(** ** Sequences of appends under mode ['w'] *)

Arguments entries_for : simpl never.

Lemma entries_for_cons_ok np_save c key data buf items :
  np_save data = Ok buf ->
  entries_for np_save c ((key, data) :: items)
  = mk_ZipInfo (zipfile.ZipInfo_filename (key +:+ ".npy")) c true (length buf) buf
    :: entries_for np_save c items.
Proof. intros H. unfold entries_for, entry_for; simpl. by rewrite H. Qed.

Lemma entries_for_app np_save c l1 l2 :
  entries_for np_save c (l1 ++ l2) = entries_for np_save c l1 ++ entries_for np_save c l2.
Proof. unfold entries_for. apply omap_app. Qed.

(** Under mode ['w'], a [write] of encodable data leaves the archive marked
    as modified, whatever the medium answers. *)
Lemma write_w_sets_modified np_save key data buf h st :
  opened h st -> mode (self st) = "w" -> np_save data = Ok buf ->
  exists z', heap (snd (write np_save key data st)) !! h = Some z'
             /\ zf_didModify z' = true.
Proof.
  intros Hop Hm Hs.
  pose proof (write_opened_result np_save key data h st Hop) as H. rewrite Hs in H.
  destruct (write np_save key data st) as [r st']. simpl.
  destruct H as (_ & _ & _ & Hw). by destruct (Hw Hm) as (_ & _ & _ & _ & Hmod).
Qed.

(** A run of appends of encodable data under mode ['w'] on a medium that
    does not fail, with names that fit. *)
Lemma write_items_w_run np_save items : forall h st,
  opened h st -> mode (self st) = "w" -> reliable st -> encodable np_save items ->
  names_fit items ->
  (exists z, heap st !! h = Some z /\ zf_didModify z = true) ->
  let st' := snd (write_items np_save items st) in
  fst (write_items np_save items st) = Ok tt
  /\ entries h st' = entries h st ++ entries_for np_save (compression (self st)) items
  /\ opened h st' /\ reliable st' /\ self st' = self st /\ disk st' = disk st
  /\ length (heap st') = length (heap st)
  /\ (forall i, i <> h -> heap st' !! i = heap st !! i)
  /\ (exists z, heap st' !! h = Some z /\ zf_didModify z = true).
Proof.
  induction items as [|[key data] items IH]; intros h st Hop Hm Hr Henc Hfit Hmod; simpl.
  - unfold entries_for, ret; cbn. rewrite app_nil_r. auto 10.
  - apply Forall_cons in Henc as [Hd Henc]. simpl in Hd.
    apply Forall_cons in Hfit as [Hk Hfit]. simpl in Hk.
    destruct (np_save data) as [buf|e] eqn:Hs; [|discriminate Hd].
    destruct (write_appends_in_mode_w np_save key data buf h st Hop Hm Hr Hk Hs)
      as (Hok & Hent & Hop1 & Hr1).
    pose proof (write_w_sets_modified np_save key data buf h st Hop Hm Hs) as Hmod1.
    pose proof (write_touches np_save key data st) as Ht.
    destruct Hop as (Hf & Hop). rewrite Hf in Ht.
    unfold mbind, M_bind, bind.
    destruct (write np_save key data st) as [r st1]. simpl in *. subst r.
    assert (Hs1 : self st1 = self st) by apply (to_self _ _ _ _ Ht).
    assert (Hm1 : mode (self st1) = "w") by by rewrite Hs1.
    destruct (IH h st1 Hop1 Hm1 Hr1 Henc Hfit Hmod1)
      as (Hok2 & Hent2 & Hop2 & Hr2 & Hs2 & Hd2 & Hl2 & Ho2 & Hmod2).
    rewrite Hs1 in Hent2.
    split; [done|]. split.
    { rewrite Hent2, Hent, (entries_for_cons_ok _ _ _ _ _ _ Hs), <- app_assoc. done. }
    split; [done|]. split; [done|]. split; [by rewrite Hs2|].
    split; [by rewrite Hd2, (to_disk _ _ _ _ Ht)|].
    split; [by rewrite Hl2, (to_length _ _ _ _ Ht)|].
    split; [|done]. intros i Hi. by rewrite Ho2, (to_others _ _ _ _ Ht).
Qed.

(** The same run with one more item after it, whose data the encoder
    refuses: the run stops there with the encoder's error. *)
Lemma write_items_w_stops np_save pre key data e post h st :
  opened h st -> mode (self st) = "w" -> reliable st -> encodable np_save pre ->
  names_fit pre -> np_save data = Raise e ->
  write_items np_save (pre ++ (key, data) :: post) st
  = (Raise e, snd (write_items np_save pre st)).
Proof.
  revert st. induction pre as [|[k d] pre IH]; intros st Hop Hm Hr Henc Hfit He; simpl.
  - unfold mbind, M_bind, bind. by rewrite (write_encoder_raises _ _ _ _ _ He).
  - apply Forall_cons in Henc as [Hd Henc]. simpl in Hd.
    apply Forall_cons in Hfit as [Hk Hfit]. simpl in Hk.
    destruct (np_save d) as [buf|e'] eqn:Hs; [|discriminate Hd].
    destruct (write_appends_in_mode_w np_save k d buf h st Hop Hm Hr Hk Hs)
      as (Hok & Hent & Hop1 & Hr1).
    pose proof (write_touches np_save k d st) as Ht.
    destruct Hop as (Hf & Hop). rewrite Hf in Ht.
    unfold mbind, M_bind, bind.
    destruct (write np_save k d st) as [r st1]. simpl in *. subst r.
    assert (Hm1 : mode (self st1) = "w") by by rewrite (to_self _ _ _ _ Ht).
    apply (IH st1 Hop1 Hm1 Hr1 Henc Hfit He).
Qed.

(** What such a run leaves in the archive. *)
Lemma write_items_w_entries np_save items h st :
  opened h st -> mode (self st) = "w" -> reliable st -> encodable np_save items ->
  names_fit items ->
  fst (write_items np_save items st) = Ok tt
  /\ entries h (snd (write_items np_save items st))
     = entries h st ++ entries_for np_save (compression (self st)) items.
Proof.
  intros Hop Hm Hr Henc Hfit.
  destruct items as [|[key data] items].
  - simpl. unfold entries_for; simpl. by rewrite app_nil_r.
  - apply Forall_cons in Henc as [Hd Henc]. simpl in Hd.
    apply Forall_cons in Hfit as [Hk Hfit]. simpl in Hk.
    destruct (np_save data) as [buf|e] eqn:Hs; [|discriminate Hd].
    destruct (write_appends_in_mode_w np_save key data buf h st Hop Hm Hr Hk Hs)
      as (Hok & Hent & Hop1 & Hr1).
    pose proof (write_w_sets_modified np_save key data buf h st Hop Hm Hs) as Hmod1.
    pose proof (write_touches np_save key data st) as Ht.
    destruct Hop as (Hf & Hop). rewrite Hf in Ht.
    simpl. unfold mbind, M_bind, bind.
    destruct (write np_save key data st) as [r st1]. simpl in *. subst r.
    assert (Hs1 : self st1 = self st) by apply (to_self _ _ _ _ Ht).
    assert (Hm1 : mode (self st1) = "w") by by rewrite Hs1.
    destruct (write_items_w_run np_save items h st1 Hop1 Hm1 Hr1 Henc Hfit Hmod1)
      as (Hok2 & Hent2 & _).
    split; [done|].
    by rewrite Hent2, Hent, Hs1, (entries_for_cons_ok _ _ _ _ _ _ Hs), <- app_assoc.
Qed.

(** X8: on a writer opened with mode ['w'], with a medium that does not
    fail, appending items the encoder accepts and whose entry names fit
    returns, and the archive has gained one entry an item, in the order of
    the calls, each under the name [ZipInfo] keeps of [key + '.npy'] and
    holding the encoded data; keys that repeat give entries with the same
    name, none replaces another. *)
Theorem write_items_appends_in_order np_save items h st :
  opened h st -> mode (self st) = "w" -> reliable st -> encodable np_save items ->
  names_fit items ->
  fst (write_items np_save items st) = Ok tt
  /\ entries h (snd (write_items np_save items st))
     = entries h st ++ entries_for np_save (compression (self st)) items.
Proof. apply write_items_w_entries. Qed.

(** Two blobs under the same key. *)
Lemma write_items_appends_in_order_witness :
  opened 0 (sample_opened "w" [])
  /\ mode (self (sample_opened "w" [])) = "w"
  /\ reliable (sample_opened "w" [])
  /\ encodable sample_save [("k", Bytes sample_blob); ("k", Bytes [])]
  /\ names_fit [("k", Bytes sample_blob); ("k", Bytes [])]
  /\ fst (write_items sample_save [("k", Bytes sample_blob); ("k", Bytes [])]
            (sample_opened "w" [])) = Ok tt
  /\ entries 0 (snd (write_items sample_save [("k", Bytes sample_blob); ("k", Bytes [])]
                       (sample_opened "w" [])))
     = entries 0 (sample_opened "w" [])
       ++ entries_for sample_save (compression (self (sample_opened "w" [])))
            [("k", Bytes sample_blob); ("k", Bytes [])].
Proof.
  assert (H1 : opened 0 (sample_opened "w" [])) by concrete_opened.
  assert (H2 : reliable (sample_opened "w" [])) by (vm_compute; constructor).
  assert (H3 : encodable sample_save [("k", Bytes sample_blob); ("k", Bytes [])])
    by (repeat constructor).
  assert (H4 : names_fit [("k", Bytes sample_blob); ("k", Bytes [])])
    by concrete_names_fit.
  split; [exact H1|]. split; [reflexivity|]. split; [exact H2|]. split; [exact H3|].
  split; [exact H4|].
  exact (write_items_appends_in_order sample_save _ 0 _ H1 eq_refl H2 H3 H4).
Defined.

Example same_key_twice_gives_two_entries :
  map zi_filename
    (entries 0 (snd (write_items sample_save [("k", Bytes sample_blob); ("k", Bytes [])]
                       (sample_opened "w" []))))
  = ["k.npy"; "k.npy"].
Proof. vm_compute. reflexivity. Qed.

(** X9: in such a run, the first item whose data the encoder refuses ends
    the run with the encoder's error: the items before it are in the
    archive, that item and the ones after it are not. *)
Theorem write_items_stops_at_refused_item np_save pre key data e post h st :
  opened h st -> mode (self st) = "w" -> reliable st -> encodable np_save pre ->
  names_fit pre -> np_save data = Raise e ->
  fst (write_items np_save (pre ++ (key, data) :: post) st) = Raise e
  /\ entries h (snd (write_items np_save (pre ++ (key, data) :: post) st))
     = entries h st ++ entries_for np_save (compression (self st)) pre.
Proof.
  intros Hop Hm Hr Henc Hfit He.
  rewrite (write_items_w_stops np_save pre key data e post h st Hop Hm Hr Henc Hfit He).
  split; [done|]. simpl. by apply write_items_w_entries.
Qed.

(** A blob, then an array of dtype [object], then another blob. *)
Lemma write_items_stops_at_refused_item_witness :
  opened 0 (sample_opened "w" [])
  /\ mode (self (sample_opened "w" [])) = "w"
  /\ reliable (sample_opened "w" [])
  /\ encodable sample_save [("a", Bytes sample_blob)]
  /\ names_fit [("a", Bytes sample_blob)]
  /\ sample_save (NdArray (mk_ndarray "object" [] []))
     = Raise (TypeError "cannot encode object array")
  /\ fst (write_items sample_save
            ([("a", Bytes sample_blob)]
             ++ ("b", NdArray (mk_ndarray "object" [] [])) :: [("c", Bytes [])])
            (sample_opened "w" []))
     = Raise (TypeError "cannot encode object array")
  /\ entries 0 (snd (write_items sample_save
                       ([("a", Bytes sample_blob)]
                        ++ ("b", NdArray (mk_ndarray "object" [] [])) :: [("c", Bytes [])])
                       (sample_opened "w" [])))
     = entries 0 (sample_opened "w" [])
       ++ entries_for sample_save (compression (self (sample_opened "w" [])))
            [("a", Bytes sample_blob)].
Proof.
  assert (H1 : opened 0 (sample_opened "w" [])) by concrete_opened.
  assert (H2 : reliable (sample_opened "w" [])) by (vm_compute; constructor).
  assert (H3 : encodable sample_save [("a", Bytes sample_blob)]) by (repeat constructor).
  assert (H4 : names_fit [("a", Bytes sample_blob)]) by concrete_names_fit.
  split; [exact H1|]. split; [reflexivity|]. split; [exact H2|]. split; [exact H3|].
  split; [exact H4|]. split; [reflexivity|].
  exact (write_items_stops_at_refused_item sample_save [("a", Bytes sample_blob)] "b"
           (NdArray (mk_ndarray "object" [] [])) (TypeError "cannot encode object array")
           [("c", Bytes [])] 0 (sample_opened "w" []) H1 eq_refl H2 H3 H4 eq_refl).
Defined.

(** ** A whole scope under mode ['w'] *)

(** [openFile] under mode ['w'] on a medium that does not fail: the target
    is created or emptied, and the writer is opened on an archive without
    entries. *)
Lemma openFile_w_run st p :
  unopened st -> mode (self st) = "w" -> tofile (self st) = Some p -> reliable st ->
  exists st1,
    openFile st = (Ok tt, st1)
    /\ opened (length (heap st)) st1
    /\ heap st1
       = heap st ++ [mk_ZipFile (Some p) "w" (compression (self st)) true [] None true]
    /\ disk st1 = <[p := []]> (disk st)
    /\ reliable st1
    /\ mode (self st1) = "w" /\ tofile (self st1) = Some p
    /\ compression (self st1) = compression (self st).
Proof.
  intros Hun Hm Hp Hr.
  destruct (openFile_result st Hun) as [Hres _].
  unfold openFile, zipfile.ZipFile_init, zipfile.io_open, zipfile.alloc in *.
  unfold get, emit, modify, raise, ret, mbind, M_bind, bind in *; cbn in *.
  rewrite Hm, Hp in *; simpl in *.
  set (st0 := set_trace _ st) in *.
  assert (Hr0 : reliable st0) by done.
  destruct (request_run st0) as (r & st1 & E & Hh & Hs & Hrel & Ht & Hd).
  rewrite E in *. destruct (Hrel Hr0) as [-> Hr1]. cbn in *.
  destruct Hres as [Hop _].
  eexists. split; [reflexivity|]. simpl_state.
  rewrite Hh, Hs, Hd in *. simpl_state. rewrite Hm, Hp in *.
  split; [exact Hop|]. by repeat split.
Qed.

(** Entering a scope under mode ['w'], appending encodable items and closing,
    on a medium that does not fail: the target ends up holding the entries
    of those items, whatever it held, and nothing stays open. *)
Lemma scoped_w_close np_save pre st p :
  unopened st -> mode (self st) = "w" -> tofile (self st) = Some p ->
  reliable st -> encodable np_save pre -> names_fit pre ->
  exists st1 st',
    openFile st = (Ok tt, st1)
    /\ opened (length (heap st)) st1 /\ mode (self st1) = "w" /\ reliable st1
    /\ fst (write_items np_save pre st1) = Ok tt
    /\ close (snd (write_items np_save pre st1)) = (Ok tt, st')
    /\ disk st' = <[p := entries_for np_save (compression (self st)) pre]> (disk st)
    /\ tofile (self st') = None
    /\ open_handles st' = open_handles st.
Proof.
  intros Hun Hm Hp Hr Henc Hfit. set (h := length (heap st)).
  destruct (openFile_w_run st p Hun Hm Hp Hr)
    as (st1 & Ho & Hop1 & Hh1 & Hd1 & Hr1 & Hm1 & Hp1 & Hc1).
  fold h in Hop1.
  assert (Hz1 : heap st1 !! h
                = Some (mk_ZipFile (Some p) "w" (compression (self st)) true [] None true)).
  { rewrite Hh1. unfold h. rewrite lookup_app_r by done. by rewrite Nat.sub_diag. }
  assert (Hmod1 : exists z, heap st1 !! h = Some z /\ zf_didModify z = true)
    by by eexists.
  destruct (write_items_w_run np_save pre h st1 Hop1 Hm1 Hr1 Henc Hfit Hmod1)
    as (Hok & Hent & Hop2 & Hr2 & Hs2 & Hd2 & Hl2 & Ho2 & (z2 & Hz2 & Hmod2)).
  set (st2 := snd (write_items np_save pre st1)) in *.
  destruct (close_opened_result h st2 Hop2) as (z2' & Hz2' & Hcl).
  rewrite Hz2 in Hz2'. injection Hz2' as <-.
  destruct (close st2) as [[[]|e] st'] eqn:Ec.
  2: { by destruct Hcl as (_ & _ & _ & _ & _ & _ & Hn & _). }
  destruct Hcl as (Hh' & _ & _ & _ & Hto & _ & Hdisk).
  exists st1, st'. repeat (split; [done|]).
  split; [|split; [done|]].
  - rewrite (Hdisk Hmod2 p) by by rewrite Hs2.
    rewrite Hd2, Hd1, insert_insert_eq. f_equal.
    unfold entries in Hent. rewrite Hz2, Hz1 in Hent. simpl in Hent.
    by rewrite Hent, Hc1.
  - assert (Hsnoc : exists y, heap st2 = heap st ++ [y] /\ heap st2 !! length (heap st) = Some y).
    { apply (snoc_replaced (heap st) (heap st2)
               (mk_ZipFile (Some p) "w" (compression (self st)) true [] None true));
        rewrite <- Hh1; [done|]. intros i Hi. by apply Ho2. }
    destruct Hsnoc as (y & Hy & _).
    unfold open_handles. rewrite Hh', Hy. unfold h.
    rewrite insert_app_r_alt by done. rewrite Nat.sub_diag. simpl.
    rewrite filter_app, filter_cons, decide_False by done. simpl.
    by rewrite filter_nil, app_nil_r.
Qed.






(** ** The script *)

Lemma write_items_single np_save key data st :
  write_items np_save [(key, data)] st = write np_save key data st.
Proof.
  simpl. unfold mbind, M_bind, bind, ret.
  by destruct (write np_save key data st) as [[[]|e] st'].
Qed.

(** X12: the writer part of the script, for any array and any content of the
    medium, when the medium does not fail: ['test.npz'] ends up holding the
    single entry ['a.npy'] with the encoded array, stored without
    compression, and the block returns; or, when the encoder refuses the
    array, an archive without entries, and the block raises the encoder's
    error.  In both cases nothing is left open. *)
Theorem main_writer_block_outcome np_save a d s :
  Forall (fun x => x = IoOk) s ->
  exists st',
    main_writer_block np_save a d s
    = Ok (match np_save (NdArray a) with
          | Ok _ => Ok tt
          | Raise e => Raise e
          end, st')
    /\ disk st' = <["test.npz" := entries_for np_save ZIP_STORED [("a", NdArray a)]]> d
    /\ open_handles st' = []
    /\ tofile (self st') = None.
Proof.
  intros Hs. unfold main_writer_block.
  change (__init__ "test.npz" "w" false) with (Ok (sample_writer "w")).
  cbv beta iota. set (st := boot (sample_writer "w") d s).
  assert (Hun : unopened st) by concrete_unopened.
  assert (Hr : reliable st) by exact Hs.
  destruct (np_save (NdArray a)) as [buf|e] eqn:He.
  - assert (Henc : encodable np_save [("a", NdArray a)]).
    { constructor; [|constructor]. simpl. by rewrite He. }
    assert (Hfit : names_fit [("a", NdArray a)]) by concrete_names_fit.
    destruct (scoped_w_close np_save [("a", NdArray a)] st "test.npz"
                Hun eq_refl eq_refl Hr Henc Hfit)
      as (st1 & st' & Ho & _ & _ & _ & Hok & Hc & Hd & Hto & Hoh).
    exists st'. split; [|done].
    unfold scoped, with_, __enter__, __exit__, try_finally, mbind, M_bind, bind.
    rewrite Ho. rewrite write_items_single in Hok, Hc.
    destruct (write np_save "a" (NdArray a) st1) as [r st2]. simpl in Hok, Hc.
    by rewrite Hok, Hc.
  - destruct (scoped_w_close np_save [] st "test.npz" Hun eq_refl eq_refl Hr)
      as (st1 & st' & Ho & _ & _ & _ & _ & Hc & Hd & Hto & Hoh);
      [constructor|constructor|].
    exists st'. split.
    + unfold scoped, with_, __enter__, __exit__, try_finally, mbind, M_bind, bind.
      rewrite Ho, (write_encoder_raises _ _ _ _ _ He). simpl in Hc. by rewrite Hc.
    + split; [|done]. rewrite Hd. unfold entries_for, entry_for; simpl. by rewrite He.
Qed.

Lemma main_writer_block_outcome_witness :
  Forall (fun x => x = IoOk) [IoOk; IoOk]
  /\ exists st',
       main_writer_block sample_save sample_array ∅ [IoOk; IoOk]
       = Ok (match sample_save (NdArray sample_array) with
             | Ok _ => Ok tt
             | Raise e => Raise e
             end, st')
       /\ disk st'
          = <["test.npz" := entries_for sample_save ZIP_STORED [("a", NdArray sample_array)]]> ∅
       /\ open_handles st' = []
       /\ tofile (self st') = None.
Proof.
  assert (H1 : Forall (fun x => x = IoOk) [IoOk; IoOk]) by (repeat constructor).
  split; [exact H1|].
  exact (main_writer_block_outcome sample_save sample_array ∅ [IoOk; IoOk] H1).
Defined.

(** ** A failed [openFile] *)

(** X13: when [openFile] raises on a writer that was never opened (the
    target exists under ['x'], the medium refuses, the mode is not one of
    [ZipFile]'s), no archive object has been made and the writer is as it
    was, unopened: [openFile] can be called again. *)
Theorem openFile_failure_keeps_unopened st e st' :
  unopened st -> openFile st = (Raise e, st') ->
  unopened st' /\ heap st' = heap st /\ self st' = self st.
Proof.
  intros Hun Ho. destruct (openFile_result st Hun) as [H _]. rewrite Ho in H.
  destruct H as [Hh Hs]. split; [|done].
  unfold unopened in *. by rewrite Hs.
Qed.

(** The medium refuses the first opening and accepts the second. *)
Lemma openFile_failure_keeps_unopened_witness :
  unopened (boot (sample_writer "w") ∅ [IoFail "EACCES"])
  /\ openFile (boot (sample_writer "w") ∅ [IoFail "EACCES"])
     = (Raise (OSError "EACCES"),
        snd (openFile (boot (sample_writer "w") ∅ [IoFail "EACCES"])))
  /\ (unopened (snd (openFile (boot (sample_writer "w") ∅ [IoFail "EACCES"])))
      /\ heap (snd (openFile (boot (sample_writer "w") ∅ [IoFail "EACCES"])))
         = heap (boot (sample_writer "w") ∅ [IoFail "EACCES"])
      /\ self (snd (openFile (boot (sample_writer "w") ∅ [IoFail "EACCES"])))
         = self (boot (sample_writer "w") ∅ [IoFail "EACCES"])).
Proof.
  assert (H1 : unopened (boot (sample_writer "w") ∅ [IoFail "EACCES"]))
    by concrete_unopened.
  assert (H2 : openFile (boot (sample_writer "w") ∅ [IoFail "EACCES"])
     = (Raise (OSError "EACCES"),
        snd (openFile (boot (sample_writer "w") ∅ [IoFail "EACCES"]))))
    by (vm_compute; reflexivity).
  split; [exact H1|]. split; [exact H2|].
  exact (openFile_failure_keeps_unopened _ _ _ H1 H2).
Defined.

Example openFile_again_after_failure :
  fst (openFile (snd (openFile (boot (sample_writer "w") ∅ [IoFail "EACCES"])))) = Ok tt.
Proof. vm_compute. reflexivity. Qed.

(** ** A name that does not fit *)

(** X14: on a writer opened with mode ['w'], a [write] of encodable data
    whose entry name takes more than 65535 bytes (a key of more than 65531
    bytes without a null character, say) raises [struct.error]: the archive
    gets no entry, the medium is not changed, and the writer is still
    opened. *)
Theorem write_refuses_name_that_does_not_fit np_save key data buf h st :
  opened h st -> mode (self st) = "w" -> np_save data = Ok buf -> ~ name_fits key ->
  exists st',
    write np_save key data st
    = (Raise (StructError "ushort format requires 0 <= number <= 65535"), st')
    /\ entries h st' = entries h st
    /\ opened h st'
    /\ disk st' = disk st.
Proof.
  intros Hop Hm Hs Hno.
  pose proof (write_opened_result np_save key data h st Hop) as H. rewrite Hs in H.
  destruct (write np_save key data st) as [r st'].
  destruct H as (Hop' & Ht & _ & Hw).
  destruct (Hw Hm) as (_ & _ & _ & Hlong & _). destruct (Hlong Hno) as [-> He].
  exists st'. split; [done|]. split; [done|]. split; [done|].
  apply (to_disk _ _ _ _ Ht).
Qed.

(** A key of 65532 characters: the name has 65536. *)
Lemma write_refuses_name_that_does_not_fit_witness :
  opened 0 (sample_opened "w" [])
  /\ mode (self (sample_opened "w" [])) = "w"
  /\ sample_save (Bytes sample_blob)
     = Ok [x93; x4e; x55; x4d; x50; x59; x01; x02; x03]%byte
  /\ ~ name_fits (sample_key (Z.to_nat 65532))
  /\ exists st',
       write sample_save (sample_key (Z.to_nat 65532)) (Bytes sample_blob) (sample_opened "w" [])
       = (Raise (StructError "ushort format requires 0 <= number <= 65535"), st')
       /\ entries 0 st' = entries 0 (sample_opened "w" [])
       /\ opened 0 st'
       /\ disk st' = disk (sample_opened "w" []).
Proof.
  assert (H1 : opened 0 (sample_opened "w" [])) by concrete_opened.
  assert (H2 : sample_save (Bytes sample_blob)
               = Ok [x93; x4e; x55; x4d; x50; x59; x01; x02; x03]%byte) by reflexivity.
  assert (H3 : ~ name_fits (sample_key (Z.to_nat 65532))).
  { unfold name_fits. vm_compute. intros H. by apply H. }
  split; [exact H1|]. split; [reflexivity|]. split; [exact H2|]. split; [exact H3|].
  exact (write_refuses_name_that_does_not_fit sample_save (sample_key (Z.to_nat 65532))
           (Bytes sample_blob) _ 0 _ H1 eq_refl H2 H3).
Defined.

(** A key of 65531 characters is the longest that fits. *)
Example longest_key_that_fits :
  name_fits (sample_key (Z.to_nat 65531)) /\ ~ name_fits (sample_key (Z.to_nat 65532)).
Proof.
  split; unfold name_fits; vm_compute; [discriminate|]. intros H. by apply H.
Qed.

(** ** A chunk the medium refuses *)

(** The medium refuses the only chunk of the entry: [write] raises, and the
    entry is in the directory with the size of the chunk counted and none of
    its bytes. *)
Example refused_chunk_is_counted :
  let st := snd (write sample_save "k" (Bytes sample_blob)
                   (sample_opened "w" [IoOk; IoOk; IoFail "ENOSPC"])) in
  entries 0 st = [mk_ZipInfo "k.npy" ZIP_STORED true 9 []].
Proof. vm_compute. reflexivity. Qed.

(** ** After closing, with finalisation *)

(** [ZipFile.close] on an archive that is closed or was built on no file
    does not reach the medium. *)
Lemma ZipFile_close_no_file h st z :
  heap st !! h = Some z -> zf_fp z = false \/ zf_filename z = None ->
  disk (snd (zipfile.ZipFile_close h st)) = disk st
  /\ self (snd (zipfile.ZipFile_close h st)) = self st
  /\ (forall i, i <> h ->
      heap (snd (zipfile.ZipFile_close h st)) !! i = heap st !! i).
Proof.
  intros Hz Hno. unfold zipfile.ZipFile_close, zipfile._write_end_record. run_monad.
  rewrite Hz; cbn. destruct (zf_fp z) eqn:Hfp; cbn; [|done].
  destruct Hno as [Hno|Hno]; [done|].
  destruct (zf_writing z); cbn; [done|].
  rewrite Hno.
  destruct (tuple_in (zf_mode z) ["w"; "x"; "a"] && zf_didModify z); cbn;
    rewrite Hz; simpl_state; (split; [done|]); (split; [done|]);
    intros i Hi; by rewrite list_lookup_insert_ne.
Qed.

Lemma perform_rc_keeps_retired np_save o st :
  retired st ->
  retired (snd (perform_rc np_save o st))
  /\ disk (snd (perform_rc np_save o st)) = disk st.
Proof.
  intros Hst. pose proof Hst as [Hto Hfile]. destruct o as [|key data|]; simpl.
  - unfold perform_rc.
    destruct (openFile st) as [r st1] eqn:Eo.
    unfold openFile, zipfile.ZipFile_init, zipfile.alloc in Eo.
    unfold get, emit, modify, raise, mbind, M_bind, bind in Eo; cbn in *. rewrite Hto in Eo.
    destruct (tuple_in (mode (self st)) ["r"; "w"; "x"; "a"]); cbn in Eo.
    2: { injection Eo as <- <-. by destruct (file (self st)). }
    destruct (tuple_in (mode (self st)) ["w"; "x"]); cbn in Eo.
    2: { injection Eo as <- <-. by destruct (file (self st)). }
    injection Eo as <- <-.
    set (znew := mk_ZipFile None (mode (self st)) (compression (self st)) true [] None true).
    assert (Hnew : (heap st ++ [znew]) !! length (heap st) = Some znew).
    { rewrite lookup_app_r by done. by rewrite Nat.sub_diag. }
    destruct (file (self st)) as [old|] eqn:Hf; simpl.
    + destruct (Hfile old eq_refl) as (z & Hz & Hno).
      assert (Hlt : old < length (heap st)) by by eapply lookup_lt_Some.
      set (st1 := set_self _ _).
      assert (Hz1 : heap st1 !! old = Some z).
      { subst st1. simpl_state. by apply lookup_app_l_Some. }
      destruct (ZipFile_close_no_file old st1 z Hz1 Hno) as (Hd & Hs & Ho).
      unfold finalize, zipfile.__del__; simpl. rewrite Hd. split; [|done].
      unfold retired. rewrite Hs. subst st1; simpl_state. split; [done|].
      intros h' [= <-]. exists znew. split; [|by right].
      rewrite Ho by lia. done.
    + split; [|done]. unfold retired; simpl_state. split; [done|].
      intros h' [= <-]. exists znew. split; [done|by right].
  - pose proof (write_touches np_save key data st) as Ht.
    destruct (file (self st)) as [h|] eqn:Hf.
    + rewrite (to_disk _ _ _ _ Ht). split; [|done].
      unfold retired. rewrite (to_self _ _ _ _ Ht), Hf. split; [done|].
      intros h' [= <-]. destruct (Hfile h eq_refl) as (z & Hz & Hno).
      destruct (to_archive _ _ _ _ Ht z Hz) as (z' & Hz' & Hfp & _ & Hn & _).
      exists z'. split; [done|]. by rewrite Hfp, Hn.
    + by rewrite Ht.
  - by rewrite close_closed.
Qed.

Lemma run_rc_keeps_retired np_save ops : forall st,
  retired st ->
  retired (run_rc np_save ops st) /\ disk (run_rc np_save ops st) = disk st.
Proof.
  induction ops as [|o ops IH]; intros st Hst; [done|].
  destruct (perform_rc_keeps_retired np_save o st Hst) as [Hst' Hd].
  unfold run_rc in *. simpl. destruct (IH _ Hst') as [IH1 IH2].
  by rewrite IH2, Hd.
Qed.

(** X15: once [close] has returned on an opened writer, nothing a caller
    does with the writer afterwards changes the medium or gives the writer
    its [tofile] back, [openFile] included, also when the archive objects
    that later calls of [openFile] replace are finalised: the archive the
    writer closed stays closed, and the objects made afterwards are built on
    no file. *)
Theorem close_is_final np_save h st st1 ops :
  opened h st -> close st = (Ok tt, st1) ->
  disk (run_rc np_save ops st1) = disk st1
  /\ tofile (self (run_rc np_save ops st1)) = None.
Proof.
  intros Hop Hc.
  destruct (close_opened_result h st Hop) as (z & Hz & H). rewrite Hc in H.
  destruct H as (Hh & _ & Hf & _ & Hto & _).
  assert (Hlt : h < length (heap st)) by by eapply lookup_lt_Some.
  assert (Hret : retired st1).
  { split; [done|]. intros h' Hh'. rewrite Hf in Hh'. injection Hh' as <-.
    exists (zipfile.zf_set_fp false z). split; [|by left].
    rewrite Hh. by apply list_lookup_insert_eq. }
  by destruct (run_rc_keeps_retired np_save ops st1 Hret) as [[Hto' _] Hd].
Qed.

(** A writer that was closed, then opened twice, written to and closed. *)
Lemma close_is_final_witness :
  opened 0 (sample_opened "w" [])
  /\ close (sample_opened "w" []) = (Ok tt, snd (close (sample_opened "w" [])))
  /\ disk (run_rc sample_save
             [OpOpenFile; OpOpenFile; OpWrite "a" (NdArray sample_array); OpClose]
             (snd (close (sample_opened "w" []))))
     = disk (snd (close (sample_opened "w" [])))
  /\ tofile (self (run_rc sample_save
                     [OpOpenFile; OpOpenFile; OpWrite "a" (NdArray sample_array); OpClose]
                     (snd (close (sample_opened "w" []))))) = None.
Proof.
  assert (H1 : opened 0 (sample_opened "w" [])) by concrete_opened.
  assert (H2 : close (sample_opened "w" []) = (Ok tt, snd (close (sample_opened "w" []))))
    by (vm_compute; reflexivity).
  split; [exact H1|]. split; [exact H2|].
  exact (close_is_final sample_save 0 _ _
           [OpOpenFile; OpOpenFile; OpWrite "a" (NdArray sample_array); OpClose] H1 H2).
Defined.
